(** * pm-js: the market operation layer ([src/markets.js])

    A shallow embedding of [createMarket], [buyOutcomeTokens],
    [sellOutcomeTokens] and [shortSellOutcomeTokens], together with the
    helpers they import from [./utils] (argument normalisation, event
    extraction, transaction dispatch).  The operations are asynchronous JavaScript functions that
    talk to deployed contracts; here they are programs in a small monad that
    threads the history of network interactions and stops at the first
    rejected promise or thrown error. *)

From stdpp Require Import base option list strings gmap.
From Stdlib Require Import ZArith Ascii Lia.

Local Open Scope string_scope.
Local Open Scope Z_scope.
Local Open Scope list_scope.

(** ** JavaScript values *)

(** The values that flow through this layer.  [JNumber] is a number literal
    with an integral value, [JBigNumber] an arbitrary-precision integer,
    [JContract] an object exposing its own [address]. *)
Inductive jsval : Type :=
| JUndefined
| JString (s : string)
| JNumber (n : Z)
| JBigNumber (n : Z)
| JContract (address : string).

#[global] Instance jsval_eq_dec : EqDecision jsval.
Proof. solve_decision. Defined.

(** What [Array.from(arguments)] holds: positional values, or one mapping
    of named values. *)
Inductive callArgs : Type :=
| Positional (vs : list jsval)
| Named (m : gmap string jsval).

(** ** Errors and results *)

Inductive error : Type :=
| ArgumentError (methodName : string) (argName : option string)
| MissingEventError (eventName : string)
| TransactionFailure (reason : string)
| ArithmeticFailure.

#[global] Instance error_eq_dec : EqDecision error.
Proof. solve_decision. Defined.

Definition isArgumentError (e : error) : bool :=
  match e with ArgumentError _ _ => true | _ => false end.

(** A value, or the error that was thrown (a rejected promise).  The code
    of this layer never raises [ArithmeticFailure]; it is the error kind the
    design reserves for amounts that would go negative or overflow. *)
Inductive result (A : Type) : Type :=
| Ok (a : A)
| Err (e : error).
Arguments Ok {A} a.
Arguments Err {A} e.

Definition isOk {A} (r : result A) : bool :=
  match r with Ok _ => true | Err _ => false end.

(** ** Contract handles, receipts and the network *)

Inductive contractType : Type :=
| Market | Event | Token | LMSRMarketMaker | MarketFactory.

#[global] Instance contractType_eq_dec : EqDecision contractType.
Proof. solve_decision. Defined.

Record contract : Type := { ctype : contractType; address : jsval }.

#[global] Instance contract_eq_dec : EqDecision contract.
Proof. solve_decision. Defined.

(** [this.contracts.X.at(address)] *)
Definition at_ (c : contractType) (a : jsval) : contract :=
  {| ctype := c; address := a |}.

(** The SDK instance the operations are methods of ([this]). *)
Record gnosis : Type := { lmsrMarketMaker : contract }.

(** A decoded event of a receipt, and the result of a transaction. *)
Record log : Type := { event : string; args : gmap string jsval }.
Record txResult : Type := { logs : list log }.

Record invocation : Type :=
  { callee : contract; method : string; margs : list jsval }.

(** A read-only contract call or a state-changing transaction. *)
Inductive action : Type :=
| Call (i : invocation)
| SendTransaction (i : invocation).

(** What the network gives back: a decoded value, or the failure the
    submission layer reports (a revert, a transaction that cannot be mined). *)
Inductive answer (A : Type) : Type :=
| Answered (a : A)
| Failed (reason : string).
Arguments Answered {A} a.
Arguments Failed {A} reason.

Inductive response : Type :=
| RFail (reason : string)
| RAddress (a : string)
| RUint (n : Z)
| RReceipt (r : txResult).

Record step : Type := { act : action; resp : response }.

Definition history : Type := list step.

(** The chain as seen from the client: what each request is answered with,
    given everything that happened before.  Calls are typed by the ABI of
    the contracts: a call declared to return an address decodes to a
    string, one declared to return an unsigned integer to a big number. *)
Record world : Type := {
  callAddress : history -> invocation -> answer string;
  callUint : history -> invocation -> answer Z;
  sendTx : history -> invocation -> answer txResult
}.

(** ** The monad of operations *)

Definition M (A : Type) : Type := world -> history -> history * result A.

Definition ret {A} (a : A) : M A := fun _ h => (h, Ok a).

Definition bind {A B} (m : M A) (k : A -> M B) : M B :=
  fun w h =>
    match m w h with
    | (h', Ok a) => k a w h'
    | (h', Err e) => (h', Err e)
    end.

(** A synchronous computation that may throw. *)
Definition lift {A} (r : result A) : M A := fun _ h => (h, r).

Declare Scope op_scope.
Delimit Scope op_scope with op.
Notation "'await' x <- m 'in' k" := (bind m (fun x => k))
  (at level 10, x name, m at level 100, k at level 200) : op_scope.
Notation "'sync' x <- r 'in' k" := (bind (lift r) (fun x => k))
  (at level 10, x name, r at level 100, k at level 200) : op_scope.
Notation "'require' r 'in' k" := (bind (lift r) (fun _ => k))
  (at level 10, r at level 100, k at level 200) : op_scope.

Definition record (a : action) (r : response) (h : history) : history :=
  h ++ [{| act := a; resp := r |}].

Definition callAddr (c : contract) (m : string) (xs : list jsval) : M string :=
  fun w h =>
    let i := {| callee := c; method := m; margs := xs |} in
    match callAddress w h i with
    | Answered a => (record (Call i) (RAddress a) h, Ok a)
    | Failed reason =>
        (record (Call i) (RFail reason) h, Err (TransactionFailure reason))
    end.

Definition callNum (c : contract) (m : string) (xs : list jsval) : M Z :=
  fun w h =>
    let i := {| callee := c; method := m; margs := xs |} in
    match callUint w h i with
    | Answered n => (record (Call i) (RUint n) h, Ok n)
    | Failed reason =>
        (record (Call i) (RFail reason) h, Err (TransactionFailure reason))
    end.

Definition transact (c : contract) (m : string) (xs : list jsval) : M txResult :=
  fun w h =>
    let i := {| callee := c; method := m; margs := xs |} in
    match sendTx w h i with
    | Answered r => (record (SendTransaction i) (RReceipt r) h, Ok r)
    | Failed reason =>
        (record (SendTransaction i) (RFail reason) h, Err (TransactionFailure reason))
    end.

(** The contract methods the operations use, by their ABI names. *)
Definition eventContract (market : contract) : M string :=
  callAddr market "eventContract" [].
Definition collateralToken (ev : contract) : M string :=
  callAddr ev "collateralToken" [].
Definition outcomeTokens (ev : contract) (index : jsval) : M string :=
  callAddr ev "outcomeTokens" [index].
Definition calcCost (mm : contract) (market index count : jsval) : M Z :=
  callNum mm "calcCost" [market; index; count].
Definition calcProfit (mm : contract) (market index count : jsval) : M Z :=
  callNum mm "calcProfit" [market; index; count].
Definition calcMarketFee (market : contract) (amount : jsval) : M Z :=
  callNum market "calcMarketFee" [amount].
Definition approve (token : contract) (spender amount : jsval) : M txResult :=
  transact token "approve" [spender; amount].

(** ** The Argument Normalizer ([normalizeWeb3Args], imported from [./utils]) *)

(** One entry of a function signature: [{ name: ..., type: ... }]. *)
Record functionInput : Type := { name : string; type : string }.

(** The second argument of [normalizeWeb3Args].  [argAliases] maps an
    external-facing parameter name to the signature's name, as in
    [{ event: 'eventContract' }]; it is empty when the caller gives none. *)
Module NormalizeOpts.
Record t : Type := {
  methodName : string;
  functionInputs : list functionInput;
  argAliases : list (string * string)
}.
End NormalizeOpts.
Import NormalizeOpts.

Inductive solType : Type :=
| TAddress
| TUint (bits : Z).

Definition digit (c : ascii) : option Z :=
  let n := Z.of_nat (nat_of_ascii c) - 48 in
  if (0 <=? n) && (n <=? 9) then Some n else None.

Fixpoint parseDigits (acc : Z) (s : string) : option Z :=
  match s with
  | EmptyString => Some acc
  | String c rest =>
      match digit c with
      | Some d => parseDigits (acc * 10 + d) rest
      | None => None
      end
  end.

(** A numeric string: one or more decimal digits. *)
Definition parseDecimal (s : string) : option Z :=
  match s with
  | EmptyString => None
  | _ => parseDigits 0 s
  end.

Definition parseType (ty : string) : option solType :=
  if String.eqb ty "address" then Some TAddress
  else match ty with
       | String "u" (String "i" (String "n" (String "t" width))) =>
           TUint <$> parseDecimal width
       | _ => None
       end.

Definition isHexDigit (c : ascii) : bool :=
  let n := nat_of_ascii c in
  ((48 <=? n) && (n <=? 57) || (65 <=? n) && (n <=? 70)
   || (97 <=? n) && (n <=? 102))%nat.

(** A fixed-length hex identifier: [0x] and forty hex digits. *)
Definition isAddress (s : string) : bool :=
  match s with
  | String "0" (String "x" body) =>
      (String.length body =? 40)%nat
      && forallb isHexDigit (String.list_ascii_of_string body)
  | _ => false
  end.

(** The integer a numeric, numeric-string or big-number input denotes. *)
Definition toInteger (v : jsval) : option Z :=
  match v with
  | JNumber n | JBigNumber n => Some n
  | JString s => parseDecimal s
  | _ => None
  end.

(** Modelled from the spec: the per-value coercion of the Argument
    Normalizer, which lives in [./utils] (not among the sources).  An
    [address] resolves to a fixed-length hex identifier, from a raw string or
    from an object exposing its own address; an unsigned integer of a given
    width accepts numeric, numeric-string or big-number input and becomes a
    big number; a value that cannot be coerced to its declared type is an
    [ArgumentError].  The spec gives no bound in words: that an integer
    outside the range of the declared width cannot be coerced is how the
    model reads "strictly matching the signature's types". *)
Definition normalizeWeb3Arg (mname : string) (inp : functionInput) (v : jsval)
  : result jsval :=
  let bad := Err (ArgumentError mname (Some (name inp))) in
  match parseType (type inp) with
  | Some TAddress =>
      match v with
      | JString s => if isAddress s then Ok (JString s) else bad
      | JContract a => if isAddress a then Ok (JString a) else bad
      | _ => bad
      end
  | Some (TUint w) =>
      match toInteger v with
      | Some n => if (0 <=? n) && (n <? 2 ^ w) then Ok (JBigNumber n) else bad
      | None => bad
      end
  | None => bad
  end.

(** The value a named call gives to parameter [n]: the one under [n] itself,
    else the one under the first alias of [n] that is present. *)
Definition lookupNamed (aliases : list (string * string))
    (m : gmap string jsval) (n : string) : option jsval :=
  match m !! n with
  | Some v => Some v
  | None =>
      head (omap (fun '(alias, target) =>
                    if String.eqb target n then m !! alias else None)
                 aliases)
  end.

(** A key of a named call is recognised when it is a parameter name or an
    alias of one. *)
Definition recognised (names : list string) (aliases : list (string * string))
    (k : string) : bool :=
  existsb (String.eqb k) names
  || existsb (fun '(alias, target) =>
                String.eqb alias k && existsb (String.eqb target) names)
             aliases.

Fixpoint sequence {A} (rs : list (result A)) : result (list A) :=
  match rs with
  | [] => Ok []
  | Ok a :: rest =>
      match sequence rest with
      | Ok l => Ok (a :: l)
      | Err e => Err e
      end
  | Err e :: _ => Err e
  end.

(** Modelled from the spec: [normalizeWeb3Args] of [./utils] (not among the
    sources).  Given a call, positional or named, and a signature, it
    produces the ordered list of values matching the signature's order and
    types.  It fails with [ArgumentError] when a required parameter is
    missing, when a positional list's length differs from the signature's,
    when a value cannot be coerced, or when a named parameter is not
    recognised.  (The source destructures the first component of what it
    returns; that component is what is modelled.) *)
Definition normalizeWeb3Args (arguments : callArgs) (opts : NormalizeOpts.t)
  : result (list jsval) :=
  let mname := methodName opts in
  let inputs := functionInputs opts in
  match arguments with
  | Positional vs =>
      if (length vs =? length inputs)%nat
      then sequence (zip_with (normalizeWeb3Arg mname) inputs vs)
      else Err (ArgumentError mname None)
  | Named m =>
      if forallb (recognised (name <$> inputs) (argAliases opts))
                 (map_to_list m).*1
      then sequence
             ((fun inp =>
                 match lookupNamed (argAliases opts) m (name inp) with
                 | Some v => normalizeWeb3Arg mname inp v
                 | None => Err (ArgumentError mname (Some (name inp)))
                 end) <$> inputs)
      else Err (ArgumentError mname None)
  end.

(** ** The Transaction Dispatcher (imported from [./utils]) *)

(** Modelled from the spec: [requireEventFromTXResult] of [./utils] (not
    among the sources).  It scans the receipt's decoded event log for the
    entries whose event name matches the expected one.  Exactly one
    instance must be present, else it fails: with [MissingEventError]
    naming the expected event when there is none.  For several instances
    the spec names no error of its own; the model raises the same
    [MissingEventError], the one kind it has for a receipt whose events are
    not as expected. *)
Definition requireEventFromTXResult (r : txResult) (expected : string)
  : result log :=
  match List.filter (fun l => String.eqb (event l) expected) (logs r) with
  | [l] => Ok l
  | _ => Err (MissingEventError expected)
  end.

(** The argument of [sendTransactionAndGetResult]. *)
Module CallDescriptor.
Record t : Type := {
  callerContract : contract;
  methodName : string;
  methodArgs : list jsval;
  eventName : string;
  eventArgName : string
}.
End CallDescriptor.

(** Reading a property of an object: [undefined] when it is absent. *)
Definition getField (o : gmap string jsval) (k : string) : jsval :=
  default JUndefined (o !! k).

(** Modelled from the spec: [sendTransactionAndGetResult] of [./utils] (not
    among the sources).  It submits the method call as a transaction, waits
    for the receipt, looks for the expected event as
    [requireEventFromTXResult] does, and returns the requested field of
    that event. *)
Definition sendTransactionAndGetResult (d : CallDescriptor.t) : M jsval :=
  (await r <- transact (CallDescriptor.callerContract d)
                       (CallDescriptor.methodName d)
                       (CallDescriptor.methodArgs d) in
   sync l <- requireEventFromTXResult r (CallDescriptor.eventName d) in
   ret (getField (args l) (CallDescriptor.eventArgName d)))%op.

(** ** The market operations ([src/markets.js]) *)

(** The signature the three trading operations normalise against. *)
Definition tradeInputs : list functionInput :=
  [ {| name := "market"; type := "address" |};
    {| name := "outcomeTokenIndex"; type := "uint8" |};
    {| name := "outcomeTokenCount"; type := "uint256" |} ].

(** Array destructuring: a missing element is [undefined]. *)
Definition elem (i : nat) (l : list jsval) : jsval := nth i l JUndefined.

Definition buyOutcomeTokens (this : gnosis) (arguments : callArgs) : M jsval :=
  (sync methodArgs <-
     normalizeWeb3Args arguments
       {| NormalizeOpts.methodName := "buyOutcomeTokens";
          functionInputs := tradeInputs;
          argAliases := [] |} in
   let marketAddress := elem 0 methodArgs in
   let outcomeTokenIndex := elem 1 methodArgs in
   let outcomeTokenCount := elem 2 methodArgs in
   let market := at_ Market marketAddress in
   await eventAddress <- eventContract market in
   await tokenAddress <- collateralToken (at_ Event (JString eventAddress)) in
   let collateralToken := at_ Token (JString tokenAddress) in
   await baseCost <- calcCost (lmsrMarketMaker this)
                       marketAddress outcomeTokenIndex outcomeTokenCount in
   await fee <- calcMarketFee market (JBigNumber baseCost) in
   let cost := baseCost + fee in
   await approval <- approve collateralToken marketAddress outcomeTokenCount in
   require requireEventFromTXResult approval "Approval" in
   sendTransactionAndGetResult
     {| CallDescriptor.callerContract := market;
        CallDescriptor.methodName := "buy";
        CallDescriptor.methodArgs :=
          [outcomeTokenIndex; outcomeTokenCount; JBigNumber cost];
        CallDescriptor.eventName := "OutcomeTokenPurchase";
        CallDescriptor.eventArgName := "cost" |})%op.

Definition sellOutcomeTokens (this : gnosis) (arguments : callArgs) : M jsval :=
  (sync methodArgs <-
     normalizeWeb3Args arguments
       {| NormalizeOpts.methodName := "sellOutcomeTokens";
          functionInputs := tradeInputs;
          argAliases := [] |} in
   let marketAddress := elem 0 methodArgs in
   let outcomeTokenIndex := elem 1 methodArgs in
   let outcomeTokenCount := elem 2 methodArgs in
   let market := at_ Market marketAddress in
   await eventAddress <- eventContract market in
   await tokenAddress <-
     outcomeTokens (at_ Event (JString eventAddress)) outcomeTokenIndex in
   let outcomeToken := at_ Token (JString tokenAddress) in
   await baseProfit <- calcProfit (lmsrMarketMaker this)
                         marketAddress outcomeTokenIndex outcomeTokenCount in
   await fee <- calcMarketFee market (JBigNumber baseProfit) in
   let minProfit := baseProfit - fee in
   await approval <- approve outcomeToken marketAddress outcomeTokenCount in
   require requireEventFromTXResult approval "Approval" in
   sendTransactionAndGetResult
     {| CallDescriptor.callerContract := market;
        CallDescriptor.methodName := "sell";
        CallDescriptor.methodArgs :=
          [outcomeTokenIndex; outcomeTokenCount; JBigNumber minProfit];
        CallDescriptor.eventName := "OutcomeTokenSale";
        CallDescriptor.eventArgName := "profit" |})%op.

Definition shortSellOutcomeTokens (this : gnosis) (arguments : callArgs)
  : M jsval :=
  (sync methodArgs <-
     normalizeWeb3Args arguments
       {| NormalizeOpts.methodName := "shortSellOutcomeTokens";
          functionInputs := tradeInputs;
          argAliases := [] |} in
   let marketAddress := elem 0 methodArgs in
   let outcomeTokenIndex := elem 1 methodArgs in
   let outcomeTokenCount := elem 2 methodArgs in
   let market := at_ Market marketAddress in
   await eventAddress <- eventContract market in
   await tokenAddress <- collateralToken (at_ Event (JString eventAddress)) in
   let collateralToken := at_ Token (JString tokenAddress) in
   sendTransactionAndGetResult
     {| CallDescriptor.callerContract := market;
        CallDescriptor.methodName := "shortSell";
        CallDescriptor.methodArgs :=
          [outcomeTokenIndex; outcomeTokenCount; JNumber 0];
        CallDescriptor.eventName := "OutcomeTokenShortSale";
        CallDescriptor.eventArgName := "cost" |})%op.

(** *** [createMarket] *)

(** What [createMarket] reads of the SDK instance ([self]): of
    [self.contracts.MarketFactory.abi], which is not among the sources, the
    inputs it declares for the method [createMarket]. *)
Record factoryContracts : Type := { marketFactoryInputs : list functionInput }.

(** The object a descriptor function returns to [wrapWeb3Function]. *)
Module Web3Function.
Record t : Type := {
  callerContract : jsval;
  callerABI : list functionInput;
  methodName : string;
  eventName : string;
  eventArgName : string;
  resultContract : contractType;
  argAliases : list (string * string)
}.
End Web3Function.

(** The descriptor function of [createMarket] (markets.js:20-30): the
    factory is the [marketFactory] option of the call, [undefined] when the
    call has none. *)
Definition createMarketDescriptor (self : factoryContracts)
    (opts : gmap string jsval) : Web3Function.t :=
  {| Web3Function.callerContract := getField opts "marketFactory";
     Web3Function.callerABI := marketFactoryInputs self;
     Web3Function.methodName := "createMarket";
     Web3Function.eventName := "MarketCreation";
     Web3Function.eventArgName := "market";
     Web3Function.resultContract := Market;
     Web3Function.argAliases := [("event", "eventContract")] |}.

(** The options object of a call: the mapping of a named call, and nothing
    for a positional one. *)
Definition optionsOf (arguments : callArgs) : gmap string jsval :=
  match arguments with
  | Named m => m
  | Positional _ => ∅
  end.

(** The arguments meant for the contract method: the call without the
    option the descriptor itself reads. *)
Definition withoutOption (k : string) (arguments : callArgs) : callArgs :=
  match arguments with
  | Named m => Named (delete k m)
  | Positional vs => Positional vs
  end.

(** The signature [createMarket] normalises against. *)
Definition createMarketOpts (self : factoryContracts) : NormalizeOpts.t :=
  {| NormalizeOpts.methodName := "createMarket";
     functionInputs := marketFactoryInputs self;
     argAliases := [("event", "eventContract")] |}.

(** Modelled from the spec: [createMarket] is [wrapWeb3Function], of
    [./utils] (not among the sources), applied to the descriptor function
    above.  Its pipeline is the spec's: normalise the call's event, market
    maker and fee against the method's inputs, with the descriptor's
    aliases; dispatch a [createMarket] transaction on the market-factory
    contract; extract the [market] field of the [MarketCreation] event;
    return a handle of the descriptor's result contract at that address. *)
Definition createMarket (self : factoryContracts) (arguments : callArgs)
  : M contract :=
  let d := createMarketDescriptor self (optionsOf arguments) in
  (sync methodArgs <-
     normalizeWeb3Args (withoutOption "marketFactory" arguments)
       {| NormalizeOpts.methodName := Web3Function.methodName d;
          functionInputs := Web3Function.callerABI d;
          argAliases := Web3Function.argAliases d |} in
   await created <-
     sendTransactionAndGetResult
       {| CallDescriptor.callerContract :=
            at_ MarketFactory (Web3Function.callerContract d);
          CallDescriptor.methodName := Web3Function.methodName d;
          CallDescriptor.methodArgs := methodArgs;
          CallDescriptor.eventName := Web3Function.eventName d;
          CallDescriptor.eventArgName := Web3Function.eventArgName d |} in
   ret (at_ (Web3Function.resultContract d) created))%op.

(** Running an operation from an empty history. *)
Definition run {A} (m : M A) (w : world) : history * result A := m w [].

(** The requests of a history, in order. *)
Definition actions (h : history) : list action := act <$> h.

(** ** Describing runs *)

Definition inv (c : contract) (m : string) (xs : list jsval) : invocation :=
  {| callee := c; method := m; margs := xs |}.

Definition called (c : contract) (m : string) (xs : list jsval) (r : response)
  : step := {| act := Call (inv c m xs); resp := r |}.

(** [replies w before s]: after the interactions [before], world [w]
    answers the request of [s] with the (successful) response of [s]. *)
Definition replies (w : world) (before : history) (s : step) : Prop :=
  match act s, resp s with
  | Call i, RAddress a => callAddress w before i = Answered a
  | Call i, RUint n => callUint w before i = Answered n
  | SendTransaction i, RReceipt r => sendTx w before i = Answered r
  | _, _ => False
  end.

(** World [w] answers the successive requests of [script], starting after
    [before]. *)
Fixpoint answersFrom (w : world) (before : history) (script : history) : Prop :=
  match script with
  | [] => True
  | s :: rest => replies w before s /\ answersFrom w (before ++ [s]) rest
  end.

(** A step that did not go through: the network rejected it, or it is an
    approval whose receipt carries no [Approval] event. *)
Definition failed (s : step) : bool :=
  match resp s with
  | RFail _ => true
  | RReceipt r =>
      match act s with
      | SendTransaction i =>
          String.eqb (method i) "approve"
          && negb (isOk (requireEventFromTXResult r "Approval"))
      | Call _ => false
      end
  | _ => false
  end.

(** No step follows a failed one. *)
Fixpoint stopsAtFailure (h : history) : bool :=
  match h with
  | [] => true
  | s :: rest =>
      match rest with
      | [] => true
      | _ :: _ => negb (failed s) && stopsAtFailure rest
      end
  end.

(** The three trading operations, to speak of all of them at once. *)
Inductive tradeOp : Type := Buy | Sell | ShortSell.

Definition perform (o : tradeOp) : gnosis -> callArgs -> M jsval :=
  match o with
  | Buy => buyOutcomeTokens
  | Sell => sellOutcomeTokens
  | ShortSell => shortSellOutcomeTokens
  end.

Definition tradeOpts (o : tradeOp) : NormalizeOpts.t :=
  {| NormalizeOpts.methodName :=
       match o with
       | Buy => "buyOutcomeTokens"
       | Sell => "sellOutcomeTokens"
       | ShortSell => "shortSellOutcomeTokens"
       end;
     functionInputs := tradeInputs;
     argAliases := [] |}.

(** The queries of each operation, as answered with the given values. *)
Definition buyQueries (this : gnosis) (l : list jsval) (ev tok : string)
    (baseCost fee : Z) : history :=
  [ called (at_ Market (elem 0 l)) "eventContract" [] (RAddress ev);
    called (at_ Event (JString ev)) "collateralToken" [] (RAddress tok);
    called (lmsrMarketMaker this) "calcCost"
      [elem 0 l; elem 1 l; elem 2 l] (RUint baseCost);
    called (at_ Market (elem 0 l)) "calcMarketFee"
      [JBigNumber baseCost] (RUint fee) ].

Definition sellQueries (this : gnosis) (l : list jsval) (ev tok : string)
    (baseProfit fee : Z) : history :=
  [ called (at_ Market (elem 0 l)) "eventContract" [] (RAddress ev);
    called (at_ Event (JString ev)) "outcomeTokens" [elem 1 l] (RAddress tok);
    called (lmsrMarketMaker this) "calcProfit"
      [elem 0 l; elem 1 l; elem 2 l] (RUint baseProfit);
    called (at_ Market (elem 0 l)) "calcMarketFee"
      [JBigNumber baseProfit] (RUint fee) ].

Definition shortSellLookups (l : list jsval) (ev tok : string) : history :=
  [ called (at_ Market (elem 0 l)) "eventContract" [] (RAddress ev);
    called (at_ Event (JString ev)) "collateralToken" [] (RAddress tok) ].

(** The transaction a call descriptor stands for. *)
Definition descriptorCall (d : CallDescriptor.t) : invocation :=
  inv (CallDescriptor.callerContract d) (CallDescriptor.methodName d)
      (CallDescriptor.methodArgs d).

(** The descriptors the operations hand to the dispatcher, from the
    normalised arguments [l]. *)
Definition buyDescriptor (l : list jsval) (cost : Z) : CallDescriptor.t :=
  {| CallDescriptor.callerContract := at_ Market (elem 0 l);
     CallDescriptor.methodName := "buy";
     CallDescriptor.methodArgs := [elem 1 l; elem 2 l; JBigNumber cost];
     CallDescriptor.eventName := "OutcomeTokenPurchase";
     CallDescriptor.eventArgName := "cost" |}.

Definition sellDescriptor (l : list jsval) (minProfit : Z) : CallDescriptor.t :=
  {| CallDescriptor.callerContract := at_ Market (elem 0 l);
     CallDescriptor.methodName := "sell";
     CallDescriptor.methodArgs := [elem 1 l; elem 2 l; JBigNumber minProfit];
     CallDescriptor.eventName := "OutcomeTokenSale";
     CallDescriptor.eventArgName := "profit" |}.

Definition shortSellDescriptor (l : list jsval) : CallDescriptor.t :=
  {| CallDescriptor.callerContract := at_ Market (elem 0 l);
     CallDescriptor.methodName := "shortSell";
     CallDescriptor.methodArgs := [elem 1 l; elem 2 l; JNumber 0];
     CallDescriptor.eventName := "OutcomeTokenShortSale";
     CallDescriptor.eventArgName := "cost" |}.

(** What is left of buying and selling once the queries are answered: the
    approval, the check for its [Approval] event, the main transaction. *)
Definition approveThenSend (token : contract) (spender amount : jsval)
    (d : CallDescriptor.t) : M jsval :=
  (await approval <- approve token spender amount in
   require requireEventFromTXResult approval "Approval" in
   sendTransactionAndGetResult d)%op.

(** ** A concrete chain, for examples *)

Definition marketA : string := "0x00000000000000000000000000000000000000a1".
Definition eventA : string := "0x00000000000000000000000000000000000000b2".
Definition tokenA : string := "0x00000000000000000000000000000000000000c3".
Definition makerA : string := "0x00000000000000000000000000000000000000d4".

Definition sdk : gnosis :=
  {| lmsrMarketMaker := at_ LMSRMarketMaker (JString makerA) |}.

(** The receipt of a transaction on the example chain: an approval emits
    [Approval]; a trade emits a transfer and its own event, reporting the
    amount it was submitted with. *)
Definition receiptFor (i : invocation) : txResult :=
  let amount := elem 2 (margs i) in
  if String.eqb (method i) "approve" then
    {| logs := [ {| event := "Approval"; args := ∅ |} ] |}
  else if String.eqb (method i) "buy" then
    {| logs := [ {| event := "Transfer"; args := ∅ |};
                 {| event := "OutcomeTokenPurchase";
                    args := {[ "cost" := amount ]} |} ] |}
  else if String.eqb (method i) "sell" then
    {| logs := [ {| event := "Transfer"; args := ∅ |};
                 {| event := "OutcomeTokenSale";
                    args := {[ "profit" := amount ]} |} ] |}
  else
    {| logs := [ {| event := "OutcomeTokenShortSale";
                    args := {[ "cost" := JBigNumber 7 ]} |} ] |}.

(** A chain whose market maker quotes [base], whose market charges [fee],
    and whose event contract and token sit at [ev] and [tok]. *)
Definition chain (ev tok : string) (base fee : Z) : world :=
  {| callAddress := fun _ i =>
       Answered (if String.eqb (method i) "eventContract" then ev else tok);
     callUint := fun _ i =>
       Answered (if String.eqb (method i) "calcMarketFee" then fee else base);
     sendTx := fun _ i => Answered (receiptFor i) |}.

Definition trade (index count : Z) : callArgs :=
  Positional [JString marketA; JNumber index; JNumber count].

Definition tradeArgs (index count : Z) : list jsval :=
  [JString marketA; JBigNumber index; JBigNumber count].

(** A receipt with two purchase events, and a chain that answers every
    transaction with a given receipt. *)
Definition doublePurchase : txResult :=
  {| logs := [ {| event := "OutcomeTokenPurchase";
                  args := {[ "cost" := JBigNumber 1 ]} |};
               {| event := "OutcomeTokenPurchase";
                  args := {[ "cost" := JBigNumber 2 ]} |} ] |}.

Definition chainAnswering (rc : txResult) : world :=
  {| callAddress := callAddress (chain eventA tokenA 100 5);
     callUint := callUint (chain eventA tokenA 100 5);
     sendTx := fun _ _ => Answered rc |}.

(** An SDK whose factory ABI declares the inputs of [creationOpts], a
    factory, and a chain whose factory reports the market it created. *)
Definition factoryA : string := "0x00000000000000000000000000000000000000e5".

Definition creationReceipt : txResult :=
  {| logs := [ {| event := "MarketCreation";
                  args := {[ "market" := JString marketA ]} |} ] |}.

Definition creation : callArgs :=
  Named {[ "marketFactory" := JContract factoryA;
           "event" := JString eventA;
           "marketMaker" := JContract makerA;
           "fee" := JNumber 50000 ]}.

(** ** Describing calls of the normaliser *)

(** A value can be coerced to a declared type: an address from a string or
    a handle holding a fixed-length hex identifier, an unsigned integer of
    width [w] from an integer in the range of [w] bits. *)
Definition coercible (ty : string) (v : jsval) : Prop :=
  match parseType ty with
  | Some TAddress =>
      exists s, (v = JString s \/ v = JContract s) /\ isAddress s = true
  | Some (TUint w) => exists n, toInteger v = Some n /\ 0 <= n < 2 ^ w
  | None => False
  end.

(** The value a call supplies for the [i]-th parameter of the signature. *)
Definition supplied (opts : NormalizeOpts.t) (arguments : callArgs) (i : nat)
  : option jsval :=
  match arguments with
  | Positional vs => vs !! i
  | Named m =>
      match functionInputs opts !! i with
      | Some inp => lookupNamed (argAliases opts) m (name inp)
      | None => None
      end
  end.

(** [k] is a key under which a named call may give parameter [inp]: its
    name, or an alias of its name. *)
Definition keyFor (aliases : list (string * string)) (k : string)
    (inp : functionInput) : Prop :=
  k = name inp \/ (k, name inp) ∈ aliases.

(** A declared signature: parameter names are distinct, an alias stands for
    one name, and no alias is itself a parameter name. *)
Definition wellFormed (opts : NormalizeOpts.t) : Prop :=
  NoDup (name <$> functionInputs opts)
  /\ NoDup (argAliases opts).*1
  /\ (forall alias target,
        (alias, target) ∈ argAliases opts ->
        alias ∉ (name <$> functionInputs opts)).

(** The ways a call can be malformed. *)
Definition missesParameter (opts : NormalizeOpts.t) (arguments : callArgs)
  : Prop :=
  exists m inp,
    arguments = Named m /\ inp ∈ functionInputs opts
    /\ m !! name inp = None
    /\ (forall alias, (alias, name inp) ∈ argAliases opts -> m !! alias = None).

Definition wrongArity (opts : NormalizeOpts.t) (arguments : callArgs) : Prop :=
  exists vs,
    arguments = Positional vs /\ length vs <> length (functionInputs opts).

Definition notCoercible (opts : NormalizeOpts.t) (arguments : callArgs)
  : Prop :=
  exists i inp v,
    functionInputs opts !! i = Some inp
    /\ supplied opts arguments i = Some v
    /\ ~ coercible (type inp) v.

Definition unrecognisedName (opts : NormalizeOpts.t) (arguments : callArgs)
  : Prop :=
  exists m k,
    arguments = Named m /\ is_Some (m !! k)
    /\ (k ∉ (name <$> functionInputs opts))
    /\ (forall target, (k, target) ∈ argAliases opts ->
                       target ∉ (name <$> functionInputs opts)).

(** A signature with an alias, as [createMarket] declares one: the caller
    says [event] for the parameter [eventContract]. *)
Definition creationOpts : NormalizeOpts.t :=
  {| NormalizeOpts.methodName := "createMarket";
     functionInputs :=
       [ {| name := "eventContract"; type := "address" |};
         {| name := "marketMaker"; type := "address" |};
         {| name := "fee"; type := "uint24" |} ];
     argAliases := [("event", "eventContract")] |}.

Definition factorySdk : factoryContracts :=
  {| marketFactoryInputs := functionInputs creationOpts |}.

(** ** Describing phases and outcomes of the trading operations *)

(** A step that is a read-only call. *)
Definition isCall (s : step) : bool :=
  match act s with
  | Call _ => true
  | SendTransaction _ => false
  end.

(** Every call of the history comes before every transaction. *)
Fixpoint callsFirst (h : history) : bool :=
  match h with
  | [] => true
  | s :: rest =>
      if isCall s then callsFirst rest
      else forallb (fun x => negb (isCall x)) rest
  end.

Definition countCalls (h : history) : nat := length (List.filter isCall h).

Definition countTransactions (h : history) : nat :=
  length (List.filter (fun s => negb (isCall s)) h).

(** How many queries each operation makes before it sends anything. *)
Definition queriesOf (o : tradeOp) : nat :=
  match o with
  | Buy | Sell => 4
  | ShortSell => 2
  end.

(** The method, the expected event and the returned field of the main
    transaction of each operation, as its call descriptor names them. *)
Definition mainMethod (o : tradeOp) : string :=
  match o with
  | Buy => "buy"
  | Sell => "sell"
  | ShortSell => "shortSell"
  end.

Definition mainEvent (o : tradeOp) : string :=
  match o with
  | Buy => "OutcomeTokenPurchase"
  | Sell => "OutcomeTokenSale"
  | ShortSell => "OutcomeTokenShortSale"
  end.

Definition resultField (o : tradeOp) : string :=
  match o with
  | Buy | ShortSell => "cost"
  | Sell => "profit"
  end.

(** The number of network interactions of a run that goes through. *)
Definition fullLength (o : tradeOp) : nat :=
  match o with
  | Buy | Sell => 6
  | ShortSell => 3
  end.

(** A chain like [chain], except that it rejects approvals. *)
Definition chainRejectingApproval (ev tok : string) (base fee : Z) : world :=
  {| callAddress := callAddress (chain ev tok base fee);
     callUint := callUint (chain ev tok base fee);
     sendTx := fun h i =>
       if String.eqb (method i) "approve" then Failed "revert"
       else sendTx (chain ev tok base fee) h i |}.

(** ** Proofs: the monad *)

Lemma bind_Ok {A B} (m : M A) (k : A -> M B) w h h' a :
  m w h = (h', Ok a) -> bind m k w h = k a w h'.
Proof. intros E. unfold bind. now rewrite E. Qed.

Lemma bind_Err {A B} (m : M A) (k : A -> M B) w h h' e :
  m w h = (h', Err e) -> bind m k w h = (h', Err e).
Proof. intros E. unfold bind. now rewrite E. Qed.

(** Unfolds an operation down to the world's answers. *)
Ltac unfold_op :=
  cbv [run perform buyOutcomeTokens sellOutcomeTokens shortSellOutcomeTokens
       sendTransactionAndGetResult bind lift ret
       eventContract collateralToken outcomeTokens calcCost calcProfit
       calcMarketFee approve callAddr callNum transact record
       CallDescriptor.callerContract CallDescriptor.methodName
       CallDescriptor.methodArgs CallDescriptor.eventName
       CallDescriptor.eventArgName].

(** Cases on the next answer of the world. *)
Ltac next_answer :=
  match goal with
  | |- context [callAddress ?w ?h ?i] =>
      let E := fresh "Eaddr" in destruct (callAddress w h i) eqn:E
  | |- context [callUint ?w ?h ?i] =>
      let E := fresh "Enum" in destruct (callUint w h i) eqn:E
  | |- context [sendTx ?w ?h ?i] =>
      let E := fresh "Etx" in destruct (sendTx w h i) eqn:E
  | |- context [requireEventFromTXResult ?r ?n] =>
      let E := fresh "Eev" in destruct (requireEventFromTXResult r n) eqn:E
  end; cbv beta iota zeta.

(** ** Proofs: runs of the operations *)

(** Uses an equation on the world's next answer. *)
Ltac answer H := rewrite H; cbv beta iota zeta; cbn [app].

Lemma buy_after_queries this arguments w l ev tok baseCost fee :
  normalizeWeb3Args arguments (tradeOpts Buy) = Ok l ->
  answersFrom w [] (buyQueries this l ev tok baseCost fee) ->
  run (buyOutcomeTokens this arguments) w =
  approveThenSend (at_ Token (JString tok)) (elem 0 l) (elem 2 l)
    (buyDescriptor l (baseCost + fee))
    w (buyQueries this l ev tok baseCost fee).
Proof.
  intros Hn Hw. cbv [tradeOpts] in Hn.
  cbv [answersFrom buyQueries replies called inv act resp app] in Hw.
  destruct Hw as (H1 & H2 & H3 & H4 & _).
  cbv [approveThenSend buyDescriptor buyQueries called inv]. unfold_op.
  answer Hn. answer H1. answer H2. answer H3. answer H4.
  reflexivity.
Qed.

Lemma sell_after_queries this arguments w l ev tok baseProfit fee :
  normalizeWeb3Args arguments (tradeOpts Sell) = Ok l ->
  answersFrom w [] (sellQueries this l ev tok baseProfit fee) ->
  run (sellOutcomeTokens this arguments) w =
  approveThenSend (at_ Token (JString tok)) (elem 0 l) (elem 2 l)
    (sellDescriptor l (baseProfit - fee))
    w (sellQueries this l ev tok baseProfit fee).
Proof.
  intros Hn Hw. cbv [tradeOpts] in Hn.
  cbv [answersFrom sellQueries replies called inv act resp app] in Hw.
  destruct Hw as (H1 & H2 & H3 & H4 & _).
  cbv [approveThenSend sellDescriptor sellQueries called inv]. unfold_op.
  answer Hn. answer H1. answer H2. answer H3. answer H4.
  reflexivity.
Qed.

Lemma shortSell_after_lookups this arguments w l ev tok :
  normalizeWeb3Args arguments (tradeOpts ShortSell) = Ok l ->
  answersFrom w [] (shortSellLookups l ev tok) ->
  run (shortSellOutcomeTokens this arguments) w =
  sendTransactionAndGetResult (shortSellDescriptor l)
    w (shortSellLookups l ev tok).
Proof.
  intros Hn Hw. cbv [tradeOpts] in Hn.
  cbv [answersFrom shortSellLookups replies called inv act resp app] in Hw.
  destruct Hw as (H1 & H2 & _).
  cbv [shortSellDescriptor shortSellLookups called inv]. unfold_op.
  answer Hn. answer H1. answer H2.
  reflexivity.
Qed.

(** The dispatcher, case by case. *)
Lemma dispatch_run d w h :
  sendTransactionAndGetResult d w h =
  match sendTx w h (descriptorCall d) with
  | Failed reason =>
      (h ++ [{| act := SendTransaction (descriptorCall d);
                resp := RFail reason |}],
       Err (TransactionFailure reason))
  | Answered r =>
      (h ++ [{| act := SendTransaction (descriptorCall d);
                resp := RReceipt r |}],
       match requireEventFromTXResult r (CallDescriptor.eventName d) with
       | Ok l => Ok (getField (args l) (CallDescriptor.eventArgName d))
       | Err e => Err e
       end)
  end.
Proof.
  cbv [descriptorCall inv]. unfold_op.
  destruct (sendTx w h _); [|reflexivity].
  now destruct (requireEventFromTXResult _ _).
Qed.

Lemma dispatch_history d w h :
  exists r, fst (sendTransactionAndGetResult d w h) =
            h ++ [{| act := SendTransaction (descriptorCall d); resp := r |}].
Proof.
  rewrite dispatch_run. destruct (sendTx w h _); eexists; reflexivity.
Qed.

(** The tail shared by buying and selling, case by case. *)
Lemma approveThenSend_run token spender amount d w h :
  approveThenSend token spender amount d w h =
  let approval := inv token "approve" [spender; amount] in
  match sendTx w h approval with
  | Failed reason =>
      (h ++ [{| act := SendTransaction approval; resp := RFail reason |}],
       Err (TransactionFailure reason))
  | Answered r =>
      let h1 := h ++ [{| act := SendTransaction approval;
                         resp := RReceipt r |}] in
      match requireEventFromTXResult r "Approval" with
      | Ok _ => sendTransactionAndGetResult d w h1
      | Err e => (h1, Err e)
      end
  end.
Proof.
  cbv [approveThenSend inv]. unfold_op.
  destruct (sendTx w h _); [|reflexivity]. cbv beta iota zeta.
  now destruct (requireEventFromTXResult _ "Approval").
Qed.

Lemma approveThenSend_begins token spender amount d w h :
  exists r rest,
    fst (approveThenSend token spender amount d w h) =
    h ++ {| act := SendTransaction (inv token "approve" [spender; amount]);
            resp := r |} :: rest.
Proof.
  rewrite approveThenSend_run. cbv zeta.
  destruct (sendTx w h _) as [r|reason]; [|by eexists _, []].
  destruct (requireEventFromTXResult r "Approval"); [|by eexists _, []].
  destruct (dispatch_history d w
              (h ++ [{| act := SendTransaction
                                 (inv token "approve" [spender; amount]);
                        resp := RReceipt r |}])) as [r' ->].
  eexists _, [_]. by rewrite <- app_assoc.
Qed.

Lemma approveThenSend_transactions token spender amount d w h i :
  SendTransaction i ∈ actions (fst (approveThenSend token spender amount d w h)) ->
  SendTransaction i ∈ actions h
  \/ i = inv token "approve" [spender; amount]
  \/ i = descriptorCall d.
Proof.
  rewrite approveThenSend_run. cbv zeta. unfold actions.
  destruct (sendTx w h _) as [r|reason].
  - destruct (requireEventFromTXResult r "Approval").
    + rewrite dispatch_run. destruct (sendTx w _ (descriptorCall d));
        cbn [fst]; rewrite !fmap_app, !elem_of_app; cbn;
        rewrite !list_elem_of_singleton;
        intros [[?|[= ->]]|[= ->]]; auto.
    + cbn [fst]; rewrite !fmap_app, !elem_of_app; cbn;
        rewrite !list_elem_of_singleton; intros [?|[= ->]]; auto.
  - cbn [fst]; rewrite !fmap_app, !elem_of_app; cbn;
      rewrite !list_elem_of_singleton; intros [?|[= ->]]; auto.
Qed.

Lemma approveThenSend_sends token spender amount d w h receipt :
  sendTx w h (inv token "approve" [spender; amount]) = Answered receipt ->
  isOk (requireEventFromTXResult receipt "Approval") = true ->
  SendTransaction (descriptorCall d)
    ∈ actions (fst (approveThenSend token spender amount d w h)).
Proof.
  intros Htx Hev. rewrite approveThenSend_run. cbv zeta. rewrite Htx.
  destruct (requireEventFromTXResult receipt "Approval"); [|discriminate].
  destruct (dispatch_history d w
              (h ++ [{| act := SendTransaction
                                 (inv token "approve" [spender; amount]);
                        resp := RReceipt receipt |}])) as [r' ->].
  unfold actions. rewrite !fmap_app, !elem_of_app. right. cbn.
  apply list_elem_of_here.
Qed.

Lemma requireEvent_error r n e :
  requireEventFromTXResult r n = Err e -> e = MissingEventError n.
Proof.
  unfold requireEventFromTXResult.
  destruct (List.filter _ _) as [|l [|l' ls]]; congruence.
Qed.

Lemma dispatch_error d w h e :
  snd (sendTransactionAndGetResult d w h) = Err e ->
  (exists reason, e = TransactionFailure reason)
  \/ e = MissingEventError (CallDescriptor.eventName d).
Proof.
  rewrite dispatch_run. destruct (sendTx w h _) as [r|reason]; cbn [snd].
  - destruct (requireEventFromTXResult r _) eqn:E; [discriminate|].
    intros [= <-]. right. eauto using requireEvent_error.
  - intros [= <-]. eauto.
Qed.

Lemma approveThenSend_error token spender amount d w h e :
  snd (approveThenSend token spender amount d w h) = Err e ->
  (exists reason, e = TransactionFailure reason)
  \/ (exists n, e = MissingEventError n).
Proof.
  rewrite approveThenSend_run. cbv zeta.
  destruct (sendTx w h _) as [r|reason]; cbn [snd].
  - destruct (requireEventFromTXResult r "Approval") eqn:E.
    + intros H. apply dispatch_error in H as [?| ->]; eauto.
    + cbn [snd]. intros [= <-]. apply requireEvent_error in E. eauto.
  - intros [= <-]. eauto.
Qed.

Lemma queries_are_calls (h : history) i :
  Forall (fun s => exists j, act s = Call j) h ->
  SendTransaction i ∈ actions h -> False.
Proof.
  unfold actions. intros Hall Hin.
  apply list_elem_of_fmap in Hin as (s & Hs & Hin).
  rewrite Forall_forall in Hall. destruct (Hall s Hin) as [j Hj]. congruence.
Qed.

Lemma buyQueries_calls this l ev tok baseCost fee :
  Forall (fun s => exists j, act s = Call j)
         (buyQueries this l ev tok baseCost fee).
Proof. repeat constructor; eexists; reflexivity. Qed.

Lemma sellQueries_calls this l ev tok baseProfit fee :
  Forall (fun s => exists j, act s = Call j)
         (sellQueries this l ev tok baseProfit fee).
Proof. repeat constructor; eexists; reflexivity. Qed.

Lemma shortSellLookups_calls l ev tok :
  Forall (fun s => exists j, act s = Call j) (shortSellLookups l ev tok).
Proof. repeat constructor; eexists; reflexivity. Qed.

(** Errors of the normaliser are argument errors of the method at hand. *)
Lemma sequence_Err {A} (rs : list (result A)) e :
  sequence rs = Err e -> Err e ∈ rs.
Proof.
  induction rs as [|[a|e'] rs IH]; cbn; [discriminate| |].
  - destruct (sequence rs); [discriminate|]. intros [= ->].
    apply list_elem_of_further. now apply IH.
  - intros [= ->]. apply list_elem_of_here.
Qed.

Lemma normalizeWeb3Arg_error mname inp v e :
  normalizeWeb3Arg mname inp v = Err e ->
  e = ArgumentError mname (Some (name inp)).
Proof.
  unfold normalizeWeb3Arg.
  destruct (parseType (type inp)) as [[|w]|]; [| |congruence].
  - destruct v; try congruence; destruct (isAddress _); congruence.
  - destruct (toInteger v); [|congruence].
    destruct (_ && _); congruence.
Qed.

Lemma normalizeWeb3Args_error arguments opts e :
  normalizeWeb3Args arguments opts = Err e ->
  exists a, e = ArgumentError (NormalizeOpts.methodName opts) a.
Proof.
  unfold normalizeWeb3Args. destruct arguments as [vs|m].
  - destruct (_ =? _)%nat; [|intros [= <-]; eauto].
    intros H%sequence_Err.
    apply elem_of_lookup_zip_with in H as (i & inp & v & H & _ & _).
    symmetry in H. apply normalizeWeb3Arg_error in H. eauto.
  - destruct (forallb _ _); [|intros [= <-]; eauto].
    intros H%sequence_Err. apply list_elem_of_fmap in H as (inp & H & _).
    destruct (lookupNamed _ _ _).
    + symmetry in H. apply normalizeWeb3Arg_error in H. eauto.
    + injection H as ->. eauto.
Qed.

Lemma stopsAtFailure_spec h :
  stopsAtFailure h = true ->
  forall h1 s h2, h = h1 ++ s :: h2 -> h2 <> [] -> failed s = false.
Proof.
  induction h as [|x h IH]; intros Hs h1 s h2 E Hne.
  - now destruct h1.
  - cbn in Hs. destruct h as [|y h].
    + destruct h1 as [|? [|? ?]]; cbn in E; try discriminate.
      injection E as _ <-. congruence.
    + apply andb_prop in Hs as [Hx Hs].
      destruct h1 as [|z h1]; cbn in E.
      * injection E as <- _. now apply negb_true_iff.
      * injection E as _ E. eauto.
Qed.

(** ** The trading operations: what is submitted *)

(** C2: in [buyOutcomeTokens], for any non-negative base cost answered by
    the market maker's [calcCost] and any non-negative fee answered by the
    market's [calcMarketFee] on that base cost, every [buy] transaction the
    operation submits is the one on the market whose third argument is the
    big number base cost + fee (integer addition on [Z]); and it is
    submitted as soon as the approval went through. *)
Theorem buy_submits_base_cost_plus_fee :
  forall this arguments w l ev tok baseCost fee,
    normalizeWeb3Args arguments (tradeOpts Buy) = Ok l ->
    0 <= baseCost -> 0 <= fee ->
    answersFrom w [] (buyQueries this l ev tok baseCost fee) ->
    let h := fst (run (buyOutcomeTokens this arguments) w) in
    let buy := inv (at_ Market (elem 0 l)) "buy"
                 [elem 1 l; elem 2 l; JBigNumber (baseCost + fee)] in
    (forall i, SendTransaction i ∈ actions h -> method i = "buy" ->
               i = buy /\ margs i !! 2%nat = Some (JBigNumber (baseCost + fee)))
    /\ (forall receipt,
          sendTx w (buyQueries this l ev tok baseCost fee)
            (inv (at_ Token (JString tok)) "approve" [elem 0 l; elem 2 l])
          = Answered receipt ->
          isOk (requireEventFromTXResult receipt "Approval") = true ->
          SendTransaction buy ∈ actions h).
Proof.
  intros this arguments w l ev tok baseCost fee Hn _ _ Hw h buy. subst h.
  rewrite (buy_after_queries _ _ _ _ _ _ _ _ Hn Hw). split.
  - intros i Hi Hm.
    apply approveThenSend_transactions in Hi as [Hi|[->| ->]].
    + destruct (queries_are_calls _ _ (buyQueries_calls _ _ _ _ _ _) Hi).
    + discriminate Hm.
    + split; reflexivity.
  - intros receipt Htx Hev.
    exact (approveThenSend_sends _ _ _ (buyDescriptor l (baseCost + fee))
             _ _ _ Htx Hev).
Qed.

Lemma buy_cost_100_fee_5 :
  SendTransaction
    (inv (at_ Market (JString marketA)) "buy"
         [JBigNumber 0; JBigNumber 10; JBigNumber 105])
  ∈ actions (fst (run (buyOutcomeTokens sdk (trade 0 10))
                      (chain eventA tokenA 100 5))).
Proof.
  refine (proj2 (buy_submits_base_cost_plus_fee sdk (trade 0 10)
                   (chain eventA tokenA 100 5) (tradeArgs 0 10)
                   eventA tokenA 100 5 _ _ _ _)
                (receiptFor (inv (at_ Token (JString tokenA)) "approve"
                                 [JString marketA; JBigNumber 10])) _ _).
  - vm_compute; reflexivity.
  - lia.
  - lia.
  - vm_compute; auto.
  - reflexivity.
  - reflexivity.
Defined.

(** C3: in [buyOutcomeTokens], once the queries are answered the next step
    is the approval on the collateral token, and every approval the
    operation submits approves the normalised [outcomeTokenCount] for the
    market: the amount does not depend on the base cost or the fee, so it
    is the count even when the cost is larger. *)
Theorem buy_approves_token_count :
  forall this arguments w l ev tok baseCost fee,
    normalizeWeb3Args arguments (tradeOpts Buy) = Ok l ->
    answersFrom w [] (buyQueries this l ev tok baseCost fee) ->
    let h := fst (run (buyOutcomeTokens this arguments) w) in
    let approval := inv (at_ Token (JString tok)) "approve"
                      [elem 0 l; elem 2 l] in
    (exists r rest,
        h = buyQueries this l ev tok baseCost fee
            ++ {| act := SendTransaction approval; resp := r |} :: rest)
    /\ (forall i, SendTransaction i ∈ actions h -> method i = "approve" ->
                  i = approval /\ margs i !! 1%nat = Some (elem 2 l)).
Proof.
  intros this arguments w l ev tok baseCost fee Hn Hw h approval. subst h.
  rewrite (buy_after_queries _ _ _ _ _ _ _ _ Hn Hw). split.
  - apply approveThenSend_begins.
  - intros i Hi Hm.
    apply approveThenSend_transactions in Hi as [Hi|[->| ->]].
    + destruct (queries_are_calls _ _ (buyQueries_calls _ _ _ _ _ _) Hi).
    + split; reflexivity.
    + discriminate Hm.
Qed.

(** Cost 105 against a count of 10: the approval is for 10. *)
Lemma buy_approves_10_for_cost_105 :
  10 < 100 + 5 /\
  exists r rest,
    fst (run (buyOutcomeTokens sdk (trade 0 10)) (chain eventA tokenA 100 5))
    = buyQueries sdk (tradeArgs 0 10) eventA tokenA 100 5
      ++ {| act := SendTransaction
                     (inv (at_ Token (JString tokenA)) "approve"
                          [JString marketA; JBigNumber 10]);
            resp := r |} :: rest.
Proof.
  split; [lia|].
  refine (proj1 (buy_approves_token_count sdk (trade 0 10)
                   (chain eventA tokenA 100 5) (tradeArgs 0 10)
                   eventA tokenA 100 5 _ _)).
  - vm_compute; reflexivity.
  - vm_compute; auto.
Defined.




(** ** The trading operations: every run *)

(** Splits the run of an operation into all its courses: the arguments are
    rejected, or the world's answers are taken one after the other. *)
Ltac all_courses arguments :=
  unfold_op;
  let l := fresh "l" in
  let e := fresh "e" in
  let Hn := fresh "Hn" in
  destruct (normalizeWeb3Args arguments _) as [l|e] eqn:Hn;
  cbv beta iota zeta;
  [ repeat next_answer;
    repeat match goal with
      | H : requireEventFromTXResult _ _ = Err ?e |- _ =>
          is_var e; pose proof (requireEvent_error _ _ _ H); subst e
      end
  | ];
  cbn [fst snd app].

Lemma perform_stops o this arguments w :
  let x := run (perform o this arguments) w in
  stopsAtFailure (fst x) = true
  /\ (forall m a, snd x = Err (ArgumentError m a) -> fst x = []).
Proof.
  destruct o; all_courses arguments.
  all: split; [|try discriminate; reflexivity].
  all: cbn [stopsAtFailure failed act resp method app].
  all: repeat match goal with
         | H : requireEventFromTXResult _ _ = _ |- _ => rewrite H; clear H
         end.
  all: reflexivity.
Qed.

Lemma perform_rejects o this arguments w e :
  normalizeWeb3Args arguments (tradeOpts o) = Err e ->
  run (perform o this arguments) w = ([], Err e).
Proof.
  intros Hn. destruct o; cbv [tradeOpts] in Hn; unfold_op; now rewrite Hn.
Qed.

(** [createMarket], case by case. *)
Lemma createMarket_run self arguments w :
  run (createMarket self arguments) w =
  match normalizeWeb3Args (withoutOption "marketFactory" arguments)
          (createMarketOpts self) with
  | Err e => ([], Err e)
  | Ok l =>
      let x := sendTransactionAndGetResult
                 {| CallDescriptor.callerContract :=
                      at_ MarketFactory
                          (getField (optionsOf arguments) "marketFactory");
                    CallDescriptor.methodName := "createMarket";
                    CallDescriptor.methodArgs := l;
                    CallDescriptor.eventName := "MarketCreation";
                    CallDescriptor.eventArgName := "market" |} w [] in
      (fst x, match snd x with
              | Ok created => Ok (at_ Market created)
              | Err e => Err e
              end)
  end.
Proof.
  cbv [run createMarket createMarketDescriptor createMarketOpts bind lift ret
       Web3Function.callerContract Web3Function.callerABI
       Web3Function.methodName Web3Function.eventName
       Web3Function.eventArgName Web3Function.resultContract
       Web3Function.argAliases].
  destruct (normalizeWeb3Args _ _) as [l|e]; [|reflexivity].
  cbv zeta. now destruct (sendTransactionAndGetResult _ w []) as [h [v|e]].
Qed.

Lemma createMarket_stops self arguments w :
  let x := run (createMarket self arguments) w in
  (length (fst x) <= 1)%nat
  /\ (forall m a, snd x = Err (ArgumentError m a) -> fst x = []).
Proof.
  rewrite createMarket_run.
  destruct (normalizeWeb3Args _ _) as [l|e]; [|split; [cbn; lia|reflexivity]].
  cbv zeta. cbn [fst snd].
  match goal with
  | |- context [sendTransactionAndGetResult ?d w []] =>
      destruct (dispatch_history d w []) as [r Hh];
      pose proof (dispatch_error d w []) as He;
      destruct (sendTransactionAndGetResult d w []) as [h [v|e]]
  end.
  - cbn [fst snd] in *. subst h. split; [cbn; lia|discriminate].
  - cbn [fst snd] in *. subst h. split; [cbn; lia|].
    intros m a [= ->]. destruct (He _ eq_refl) as [[? H]|H]; discriminate H.
Qed.


(** ** Short selling *)

(** C5: in every run of [shortSellOutcomeTokens], each transaction
    submitted is [shortSell] with exactly three arguments, the third being
    the number literal 0, so no approval is ever submitted; the only
    contract calls are the two lookups, so no pricing query ([calcCost],
    [calcProfit], [calcMarketFee]) is made; and once the lookups are
    answered the [shortSell] transaction with (index, count, 0) is
    submitted on the market. *)
Theorem shortSell_zero_floor_no_approval :
  forall this arguments w,
    let h := fst (run (shortSellOutcomeTokens this arguments) w) in
    (forall i, SendTransaction i ∈ actions h ->
               method i = "shortSell" /\ method i <> "approve"
               /\ exists index count, margs i = [index; count; JNumber 0])
    /\ (forall i, Call i ∈ actions h ->
                  (method i = "eventContract" \/ method i = "collateralToken")
                  /\ method i <> "calcCost" /\ method i <> "calcProfit"
                  /\ method i <> "calcMarketFee")
    /\ (forall l ev tok,
          normalizeWeb3Args arguments (tradeOpts ShortSell) = Ok l ->
          answersFrom w [] (shortSellLookups l ev tok) ->
          actions h
          = actions (shortSellLookups l ev tok)
            ++ [SendTransaction
                  (inv (at_ Market (elem 0 l)) "shortSell"
                       [elem 1 l; elem 2 l; JNumber 0])]).
Proof.
  intros this arguments w h. subst h. split; [|split].
  - all_courses arguments.
    all: intros i Hi; cbv [actions] in Hi; cbn in Hi.
    all: repeat match goal with
           | H : _ ∈ _ :: _ |- _ => apply elem_of_cons in H as [H|H]
           | H : _ ∈ [] |- _ => apply elem_of_nil in H; destruct H
           | H : SendTransaction _ = Call _ |- _ => discriminate H
           | H : SendTransaction _ = SendTransaction _ |- _ =>
               injection H as ->
           end.
    all: cbn; split; [reflexivity|]; split; [discriminate|eauto].
  - all_courses arguments.
    all: intros i Hi; cbv [actions] in Hi; cbn in Hi.
    all: repeat match goal with
           | H : _ ∈ _ :: _ |- _ => apply elem_of_cons in H as [H|H]
           | H : _ ∈ [] |- _ => apply elem_of_nil in H; destruct H
           | H : Call _ = SendTransaction _ |- _ => discriminate H
           | H : Call _ = Call _ |- _ => injection H as ->
           end.
    all: cbn; repeat split; auto; discriminate.
  - intros l ev tok Hn Hw.
    rewrite (shortSell_after_lookups _ _ _ _ _ _ Hn Hw).
    destruct (dispatch_history (shortSellDescriptor l) w
                (shortSellLookups l ev tok)) as [r ->].
    unfold actions. now rewrite fmap_app.
Qed.

(** C9: [shortSellOutcomeTokens] looks up the market's event contract and
    that event's collateral token, and uses neither value.  Take two
    worlds that answer the lookups with any values, and that answer the
    [shortSell] transaction alike: both runs start with their two lookups,
    both then submit the same transaction (same target, method and
    arguments) as their last step, and both give the same result. *)
Theorem shortSell_ignores_lookup_values :
  forall this arguments l w1 w2 ev1 tok1 ev2 tok2,
    normalizeWeb3Args arguments (tradeOpts ShortSell) = Ok l ->
    answersFrom w1 [] (shortSellLookups l ev1 tok1) ->
    answersFrom w2 [] (shortSellLookups l ev2 tok2) ->
    let tx := inv (at_ Market (elem 0 l)) "shortSell"
                [elem 1 l; elem 2 l; JNumber 0] in
    sendTx w1 (shortSellLookups l ev1 tok1) tx
    = sendTx w2 (shortSellLookups l ev2 tok2) tx ->
    let run1 := run (shortSellOutcomeTokens this arguments) w1 in
    let run2 := run (shortSellOutcomeTokens this arguments) w2 in
    (exists r1 r2,
        fst run1 = shortSellLookups l ev1 tok1
                   ++ [{| act := SendTransaction tx; resp := r1 |}]
        /\ fst run2 = shortSellLookups l ev2 tok2
                      ++ [{| act := SendTransaction tx; resp := r2 |}]
        /\ r1 = r2)
    /\ snd run1 = snd run2.
Proof.
  intros this arguments l w1 w2 ev1 tok1 ev2 tok2 Hn Hw1 Hw2 tx Htx run1 run2.
  subst run1 run2.
  rewrite (shortSell_after_lookups _ _ _ _ _ _ Hn Hw1).
  rewrite (shortSell_after_lookups _ _ _ _ _ _ Hn Hw2).
  rewrite !dispatch_run.
  change (descriptorCall (shortSellDescriptor l)) with tx.
  rewrite Htx. destruct (sendTx w2 _ tx); cbn [fst snd]; eauto 6.
Qed.

Lemma shortSell_same_under_swapped_lookups :
  snd (run (shortSellOutcomeTokens sdk (trade 1 4)) (chain eventA tokenA 0 0))
  = snd (run (shortSellOutcomeTokens sdk (trade 1 4)) (chain tokenA eventA 9 9)).
Proof.
  refine (proj2 (shortSell_ignores_lookup_values sdk (trade 1 4)
                   (tradeArgs 1 4)
                   (chain eventA tokenA 0 0) (chain tokenA eventA 9 9)
                   eventA tokenA tokenA eventA _ _ _ _)).
  - vm_compute; reflexivity.
  - vm_compute; auto.
  - vm_compute; auto.
  - reflexivity.
Defined.

(** ** The Transaction Dispatcher *)

Lemma filter_eqb_name (ls : list log) n :
  List.filter (fun l => String.eqb (event l) n) ls
  = filter (fun l => event l = n) ls.
Proof.
  induction ls as [|l ls IH]; [reflexivity|]. cbn [List.filter].
  destruct (String.eqb_spec (event l) n) as [E|E].
  - rewrite filter_cons_True by exact E. now rewrite IH.
  - now rewrite filter_cons_False.
Qed.

Lemma requireEvent_filter r n :
  requireEventFromTXResult r n =
  match filter (fun l => event l = n) (logs r) with
  | [l] => Ok l
  | _ => Err (MissingEventError n)
  end.
Proof. unfold requireEventFromTXResult. now rewrite filter_eqb_name. Qed.

(** Two purchase events in one receipt: an event with the expected name is
    present, and the dispatcher fails. *)
Lemma dispatch_fails_on_two_matching_events :
  sendTx (chainAnswering doublePurchase) []
    (descriptorCall (buyDescriptor (tradeArgs 0 10) 105))
  = Answered doublePurchase
  /\ (exists l, l ∈ logs doublePurchase
                /\ event l = CallDescriptor.eventName
                               (buyDescriptor (tradeArgs 0 10) 105))
  /\ isOk (snd (sendTransactionAndGetResult
                  (buyDescriptor (tradeArgs 0 10) 105)
                  (chainAnswering doublePurchase) [])) = false.
Proof.
  split; [reflexivity|]. split; [|vm_compute; reflexivity].
  eexists. split; [apply list_elem_of_here|reflexivity].
Qed.

(** C4, as the model has it: when the transaction is answered with a
    receipt, the dispatcher succeeds exactly when the receipt's log holds
    exactly one event with the expected name, and the value it returns is
    the requested field of that event; with no such event it fails with
    [MissingEventError] naming the expected event; with several it fails.
    The outcome is a function of the matching events alone, and a returned
    value is always the field of an event with the expected name, so events
    with other names never stand in for the expected one. *)
Theorem dispatch_returns_field_iff_event_present_once :
  forall d w h receipt,
    sendTx w h (descriptorCall d) = Answered receipt ->
    let r := snd (sendTransactionAndGetResult d w h) in
    let expected := CallDescriptor.eventName d in
    let field := CallDescriptor.eventArgName d in
    let matching := filter (fun l => event l = expected) (logs receipt) in
    (isOk r = true <-> exists l, matching = [l])
    /\ (forall l, matching = [l] -> r = Ok (getField (args l) field))
    /\ (forall v, r = Ok v ->
                  exists l, l ∈ logs receipt /\ event l = expected
                            /\ v = getField (args l) field)
    /\ ((forall l, l ∈ logs receipt -> event l <> expected) ->
        r = Err (MissingEventError expected))
    /\ (forall l1 l2 rest, matching = l1 :: l2 :: rest -> exists e, r = Err e).
Proof.
  intros d w h receipt Htx r expected field matching. subst r.
  rewrite dispatch_run, Htx. cbn [snd]. rewrite requireEvent_filter.
  fold expected field matching.
  assert (Hm : forall l, l ∈ matching <-> l ∈ logs receipt /\ event l = expected).
  { intros l. unfold matching. rewrite list_elem_of_filter. tauto. }
  destruct matching as [|l [|l' rest]] eqn:E.
  - split; [|split; [|split; [|split]]].
    + split; [discriminate|]. intros (l & Hl). discriminate Hl.
    + discriminate.
    + discriminate.
    + reflexivity.
    + discriminate.
  - assert (Hl : l ∈ logs receipt /\ event l = expected)
      by (apply Hm, list_elem_of_here).
    split; [|split; [|split; [|split]]].
    + split; [eauto|reflexivity].
    + now intros l0 [= <-].
    + intros v [= <-]. exists l. tauto.
    + intros Hno. destruct Hl as [Hin Hev]. now destruct (Hno l Hin).
    + discriminate.
  - assert (Hl : l ∈ logs receipt /\ event l = expected)
      by (apply Hm, list_elem_of_here).
    split; [|split; [|split; [|split]]].
    + split; [discriminate|]. intros (l0 & Hl0). discriminate Hl0.
    + discriminate.
    + discriminate.
    + intros Hno. destruct Hl as [Hin Hev]. now destruct (Hno l Hin).
    + eauto.
Qed.

(** The [buy] receipt of the example chain holds a transfer before its one
    purchase event: the purchase's [cost] is what comes back. *)
Lemma dispatch_skips_transfer_event :
  snd (sendTransactionAndGetResult (buyDescriptor (tradeArgs 0 10) 105)
         (chain eventA tokenA 100 5) [])
  = Ok (JBigNumber 105).
Proof.
  refine (proj1 (proj2
            (dispatch_returns_field_iff_event_present_once
               (buyDescriptor (tradeArgs 0 10) 105)
               (chain eventA tokenA 100 5) []
               (receiptFor (descriptorCall (buyDescriptor (tradeArgs 0 10) 105)))
               _))
            {| event := "OutcomeTokenPurchase";
               args := {[ "cost" := JBigNumber 105 ]} |} _).
  - reflexivity.
  - vm_compute. reflexivity.
Defined.

(** ** The Argument Normalizer *)

Lemma sequence_has_Err {A} (rs : list (result A)) e :
  Err e ∈ rs -> exists e', sequence rs = Err e'.
Proof.
  induction rs as [|[a|e0] rs IH]; intros Hin.
  - now apply elem_of_nil in Hin.
  - apply elem_of_cons in Hin as [|Hin]; [discriminate|].
    destruct (IH Hin) as [e' He']. cbn. rewrite He'. eauto.
  - cbn. eauto.
Qed.

Lemma normalizeWeb3Arg_coercible mname inp v v' :
  normalizeWeb3Arg mname inp v = Ok v' -> coercible (type inp) v.
Proof.
  unfold normalizeWeb3Arg, coercible.
  destruct (parseType (type inp)) as [[|w]|]; [| |discriminate].
  - destruct v; try discriminate;
      (destruct (isAddress _) eqn:E; [|discriminate]); eauto.
  - destruct (toInteger v) as [n|]; [|discriminate].
    destruct (_ && _) eqn:E; [|discriminate].
    apply andb_prop in E as [?%Z.leb_le ?%Z.ltb_lt]. eauto.
Qed.

Lemma lookupNamed_None aliases (m : gmap string jsval) n :
  m !! n = None ->
  (forall alias, (alias, n) ∈ aliases -> m !! alias = None) ->
  lookupNamed aliases m n = None.
Proof.
  intros Hn Hal. unfold lookupNamed. rewrite Hn. apply head_None.
  destruct (omap _ aliases) as [|y ys] eqn:E; [reflexivity|].
  assert (Hy : y ∈ omap (fun '(alias, target) =>
                 if String.eqb target n then m !! alias else None) aliases)
    by (rewrite E; apply list_elem_of_here).
  apply list_elem_of_omap in Hy as ([a t] & Hin & Hy).
  destruct (String.eqb_spec t n) as [->|]; [|discriminate].
  rewrite (Hal a Hin) in Hy. discriminate.
Qed.

Lemma recognised_false names aliases k :
  k ∉ names ->
  (forall target, (k, target) ∈ aliases -> target ∉ names) ->
  recognised names aliases k = false.
Proof.
  intros Hk Hal. unfold recognised. apply orb_false_intro.
  - apply not_true_iff_false. intros (x & Hin & Hx)%existsb_exists.
    apply String.eqb_eq in Hx as <-. now apply list_elem_of_In in Hin.
  - apply not_true_iff_false. intros ([a t] & Hin & Hx)%existsb_exists.
    apply andb_prop in Hx as [<-%String.eqb_eq (x & Hx & <-%String.eqb_eq)%existsb_exists].
    apply list_elem_of_In in Hin, Hx. now apply (Hal t).
Qed.

Lemma rejects_missing opts arguments :
  missesParameter opts arguments ->
  exists e, normalizeWeb3Args arguments opts = Err e.
Proof.
  intros (m & inp & -> & Hin & Hn & Hal). cbn.
  destruct (forallb _ _); [|eauto].
  apply (sequence_has_Err _ (ArgumentError (NormalizeOpts.methodName opts)
                                            (Some (name inp)))).
  apply list_elem_of_fmap. exists inp. split; [|exact Hin].
  now rewrite (lookupNamed_None _ _ _ Hn Hal).
Qed.

Lemma rejects_arity opts arguments :
  wrongArity opts arguments ->
  exists e, normalizeWeb3Args arguments opts = Err e.
Proof.
  intros (vs & -> & Hlen). cbn.
  apply Nat.eqb_neq in Hlen. rewrite Hlen. eauto.
Qed.

Lemma rejects_not_coercible opts arguments :
  notCoercible opts arguments ->
  exists e, normalizeWeb3Args arguments opts = Err e.
Proof.
  intros (i & inp & v & Hinp & Hv & Hno). unfold normalizeWeb3Args.
  destruct arguments as [vs|m]; cbn [supplied] in Hv.
  - destruct (_ =? _)%nat; [|eauto].
    destruct (normalizeWeb3Arg (NormalizeOpts.methodName opts) inp v)
      as [v'|e] eqn:E.
    { destruct Hno. eauto using normalizeWeb3Arg_coercible. }
    apply (sequence_has_Err _ e).
    apply elem_of_lookup_zip_with. eauto 6.
  - rewrite Hinp in Hv. destruct (forallb _ _); [|eauto].
    destruct (normalizeWeb3Arg (NormalizeOpts.methodName opts) inp v)
      as [v'|e] eqn:E.
    { destruct Hno. eauto using normalizeWeb3Arg_coercible. }
    apply (sequence_has_Err _ e).
    apply list_elem_of_fmap. exists inp. rewrite Hv.
    split; [now symmetry|]. apply list_elem_of_lookup. eauto.
Qed.

Lemma rejects_unrecognised opts arguments :
  unrecognisedName opts arguments ->
  exists e, normalizeWeb3Args arguments opts = Err e.
Proof.
  intros (m & k & -> & [v Hv] & Hk & Hal). cbn.
  destruct (forallb _ _) eqn:E; [|eauto].
  rewrite forallb_forall in E.
  assert (Hin : In k (map_to_list m).*1).
  { apply list_elem_of_In, list_elem_of_fmap. exists (k, v).
    split; [reflexivity|]. now apply elem_of_map_to_list. }
  apply E in Hin. rewrite (recognised_false _ _ _ Hk Hal) in Hin.
  discriminate.
Qed.

(** C7: a named call that omits a required parameter of the signature, a
    positional call whose length differs from the signature's, a call
    supplying a value that cannot be coerced to its declared type, and a
    named call with an unrecognised name, all make the normaliser fail
    with [ArgumentError] (of the method being called). *)
Theorem normalizer_rejects_malformed_calls :
  forall arguments opts,
    missesParameter opts arguments \/ wrongArity opts arguments
    \/ notCoercible opts arguments \/ unrecognisedName opts arguments ->
    exists a,
      normalizeWeb3Args arguments opts
      = Err (ArgumentError (NormalizeOpts.methodName opts) a).
Proof.
  intros arguments opts H.
  assert (exists e, normalizeWeb3Args arguments opts = Err e) as [e He].
  { destruct H as [H|[H|[H|H]]];
      eauto using rejects_missing, rejects_arity, rejects_not_coercible,
                  rejects_unrecognised. }
  destruct (normalizeWeb3Args_error _ _ _ He) as [a ->]. eauto.
Qed.

(** A sale that names no [outcomeTokenCount]. *)
Lemma sell_without_count_is_rejected :
  exists a,
    normalizeWeb3Args
      (Named {[ "market" := JString marketA;
                "outcomeTokenIndex" := JNumber 0 ]})
      (tradeOpts Sell)
    = Err (ArgumentError "sellOutcomeTokens" a).
Proof.
  apply (normalizer_rejects_malformed_calls
           (Named {[ "market" := JString marketA;
                     "outcomeTokenIndex" := JNumber 0 ]})
           (tradeOpts Sell)).
  left. eexists _, {| name := "outcomeTokenCount"; type := "uint256" |}.
  split; [reflexivity|]. split; [|split].
  - cbn. set_solver.
  - reflexivity.
  - intros alias Hal. now apply elem_of_nil in Hal.
Defined.

(** *** Positional and named calls *)

Section NamedCall.
Variable opts : NormalizeOpts.t.
Variables (ks : list string) (vs : list jsval).
Hypothesis Hwf : wellFormed opts.
Hypothesis Hlen : length vs = length (functionInputs opts).
Hypothesis Hkeys : Forall2 (keyFor (argAliases opts)) ks (functionInputs opts).

Let m : gmap string jsval := list_to_map (zip ks vs).

(** Two parameters reached by one key are the same parameter. *)
Lemma keyFor_inj k i j inp1 inp2 :
  functionInputs opts !! i = Some inp1 ->
  functionInputs opts !! j = Some inp2 ->
  keyFor (argAliases opts) k inp1 -> keyFor (argAliases opts) k inp2 ->
  i = j.
Proof using Hwf.
  destruct Hwf as (Hnames & Hal & Hdisj).
  intros H1 H2 K1 K2.
  assert (N1 : (name <$> functionInputs opts) !! i = Some (name inp1))
    by now rewrite list_lookup_fmap, H1.
  assert (N2 : (name <$> functionInputs opts) !! j = Some (name inp2))
    by now rewrite list_lookup_fmap, H2.
  assert (E : name inp1 = name inp2).
  { destruct K1 as [->|K1], K2 as [E|K2].
    - exact E.
    - destruct (Hdisj _ _ K2). apply list_elem_of_lookup. eauto.
    - destruct (Hdisj _ _ K1). rewrite E. apply list_elem_of_lookup. eauto.
    - apply list_elem_of_lookup in K1 as [a K1], K2 as [b K2].
      assert (a = b).
      { apply (NoDup_lookup _ a b k Hal);
          rewrite list_lookup_fmap; [now rewrite K1|now rewrite K2]. }
      subst b. congruence. }
  rewrite <- E in N2. exact (NoDup_lookup _ _ _ _ Hnames N1 N2).
Qed.

Lemma keys_NoDup : NoDup ks.
Proof using Hwf Hkeys.
  apply NoDup_alt. intros i j k Hi Hj.
  destruct (Forall2_lookup_l _ _ _ _ _ Hkeys Hi) as (inp1 & H1 & K1).
  destruct (Forall2_lookup_l _ _ _ _ _ Hkeys Hj) as (inp2 & H2 & K2).
  eauto using keyFor_inj.
Qed.

Lemma keys_length : length ks = length vs.
Proof using Hlen Hkeys. rewrite Hlen. exact (Forall2_length _ _ _ Hkeys). Qed.

(** The mapping holds exactly the positional values under their keys. *)
Lemma named_lookup k v :
  m !! k = Some v <-> exists i, ks !! i = Some k /\ vs !! i = Some v.
Proof using Hwf Hlen Hkeys.
  unfold m. rewrite <- elem_of_list_to_map.
  - rewrite list_elem_of_lookup. split.
    + intros [i Hi]. exists i.
      apply lookup_zip_with_Some in Hi as (x & y & [= -> ->] & ? & ?).
      auto.
    + intros (i & Hk & Hv). exists i.
      apply lookup_zip_with_Some. eauto.
  - rewrite fst_zip by (rewrite keys_length; lia). exact keys_NoDup.
Qed.

Lemma named_supplies i inp v :
  functionInputs opts !! i = Some inp -> vs !! i = Some v ->
  lookupNamed (argAliases opts) m (name inp) = Some v.
Proof using Hwf Hlen Hkeys.
  intros Hinp Hv.
  destruct (Forall2_lookup_r _ _ _ _ _ Hkeys Hinp) as (k & Hk & K).
  assert (Hm : m !! k = Some v) by (apply named_lookup; eauto).
  unfold lookupNamed. destruct K as [->|K]; [now rewrite Hm|].
  destruct (m !! name inp) as [v'|] eqn:Hdirect.
  { (* the name itself is not a key: the parameter is given by its alias *)
    apply named_lookup in Hdirect as (j & Hj & _).
    destruct (Forall2_lookup_l _ _ _ _ _ Hkeys Hj) as (inp2 & H2 & K2).
    assert (i = j)
      by exact (keyFor_inj (name inp) i j inp inp2 Hinp H2
                  (or_introl eq_refl) K2).
    subst j. rewrite Hk in Hj. injection Hj as Hj.
    destruct Hwf as (_ & _ & Hdisj). destruct (Hdisj _ _ K).
    rewrite Hj. apply list_elem_of_lookup. exists i.
    now rewrite list_lookup_fmap, Hinp. }
  set (pick := fun '(alias, target) =>
                 if String.eqb target (name inp) then m !! alias else None).
  assert (Hall : forall y, y ∈ omap pick (argAliases opts) -> y = v).
  { intros y ([a t] & Hin & Hy)%list_elem_of_omap. cbn in Hy.
    destruct (String.eqb_spec t (name inp)) as [->|]; [|discriminate].
    apply named_lookup in Hy as (j & Hj & Hvj).
    destruct (Forall2_lookup_l _ _ _ _ _ Hkeys Hj) as (inp2 & H2 & K2).
    assert (i = j)
      by exact (keyFor_inj a i j inp inp2 Hinp H2 (or_intror Hin) K2).
    subst j. congruence. }
  assert (Hex : v ∈ omap pick (argAliases opts)).
  { apply list_elem_of_omap. exists (k, name inp). split; [exact K|].
    cbn. now rewrite String.eqb_refl. }
  destruct (omap pick (argAliases opts)) as [|y ys].
  - now apply elem_of_nil in Hex.
  - cbn. f_equal. apply Hall, list_elem_of_here.
Qed.

Lemma named_keys_recognised :
  forallb (recognised (name <$> functionInputs opts) (argAliases opts))
          (map_to_list m).*1 = true.
Proof using Hwf Hlen Hkeys.
  apply forallb_forall. intros k Hin.
  apply list_elem_of_In, list_elem_of_fmap in Hin as ([k' v] & -> & Hin).
  apply elem_of_map_to_list, named_lookup in Hin as (i & Hk & _).
  destruct (Forall2_lookup_l _ _ _ _ _ Hkeys Hk) as (inp & Hinp & K).
  assert (Hname : In (name inp) (name <$> functionInputs opts)).
  { apply list_elem_of_In, list_elem_of_fmap. exists inp.
    split; [reflexivity|]. apply list_elem_of_lookup. eauto. }
  unfold recognised. apply orb_true_iff. cbn [fst]. destruct K as [->|K].
  - left. apply existsb_exists. exists (name inp).
    split; [exact Hname|apply String.eqb_refl].
  - right. apply existsb_exists. exists (k', name inp).
    split; [now apply list_elem_of_In|].
    rewrite String.eqb_refl. cbn. apply existsb_exists.
    exists (name inp). split; [exact Hname|apply String.eqb_refl].
Qed.

End NamedCall.




(** ** Further properties of the trading operations *)

(** *** The shape of a run: each request is built from the answers before it *)

(** X1: in a run of [buyOutcomeTokens] whose arguments normalise to [l],
    there are between one and six network interactions, in this order:
    [eventContract] on the market; [collateralToken] on the event contract
    the first answer names; [calcCost] on the market maker with (market,
    index, count); [calcMarketFee] on the market with the quoted base cost;
    [approve] on the token the second answer names, for (market, count);
    [buy] on the market with (index, count, base cost + fee). *)
Theorem buy_requests_follow_answers :
  forall this arguments w l,
    normalizeWeb3Args arguments (tradeOpts Buy) = Ok l ->
    let h := fst (run (buyOutcomeTokens this arguments) w) in
    let market := at_ Market (elem 0 l) in
    (1 <= length h <= 6)%nat
    /\ (forall s, h !! 0%nat = Some s ->
          act s = Call (inv market "eventContract" []))
    /\ (forall s, h !! 1%nat = Some s ->
          exists ev,
            resp <$> h !! 0%nat = Some (RAddress ev)
            /\ act s = Call (inv (at_ Event (JString ev)) "collateralToken" []))
    /\ (forall s, h !! 2%nat = Some s ->
          act s = Call (inv (lmsrMarketMaker this) "calcCost"
                            [elem 0 l; elem 1 l; elem 2 l]))
    /\ (forall s, h !! 3%nat = Some s ->
          exists baseCost,
            resp <$> h !! 2%nat = Some (RUint baseCost)
            /\ act s = Call (inv market "calcMarketFee" [JBigNumber baseCost]))
    /\ (forall s, h !! 4%nat = Some s ->
          exists tok,
            resp <$> h !! 1%nat = Some (RAddress tok)
            /\ act s = SendTransaction
                         (inv (at_ Token (JString tok)) "approve"
                              [elem 0 l; elem 2 l]))
    /\ (forall s, h !! 5%nat = Some s ->
          exists baseCost fee,
            resp <$> h !! 2%nat = Some (RUint baseCost)
            /\ resp <$> h !! 3%nat = Some (RUint fee)
            /\ act s = SendTransaction
                         (inv market "buy"
                              [elem 1 l; elem 2 l; JBigNumber (baseCost + fee)])).
Proof.
  intros this arguments w l Hn h market. subst h market.
  cbv [tradeOpts] in Hn. unfold_op. rewrite Hn. cbv beta iota zeta.
  repeat next_answer.
  all: cbn [fst app length].
  all: repeat match goal with |- _ /\ _ => split end; try lia.
  all: intros s Hs; cbn in Hs; try discriminate Hs; injection Hs as <-.
  all: cbn; eauto.
Qed.

Lemma buy_example_within_six_steps :
  (1 <= length (fst (run (buyOutcomeTokens sdk (trade 0 10))
                         (chain eventA tokenA 100 5))) <= 6)%nat.
Proof.
  refine (proj1 (buy_requests_follow_answers sdk (trade 0 10)
                   (chain eventA tokenA 100 5) (tradeArgs 0 10) _)).
  vm_compute; reflexivity.
Defined.

(** X2: in a run of [sellOutcomeTokens] whose arguments normalise to [l],
    there are between one and six network interactions, in this order:
    [eventContract] on the market; [outcomeTokens(index)] on the event
    contract the first answer names; [calcProfit] on the market maker with
    (market, index, count); [calcMarketFee] on the market with the quoted
    base profit; [approve] on the outcome token the second answer names,
    for (market, count); [sell] on the market with (index, count, base
    profit - fee). *)
Theorem sell_requests_follow_answers :
  forall this arguments w l,
    normalizeWeb3Args arguments (tradeOpts Sell) = Ok l ->
    let h := fst (run (sellOutcomeTokens this arguments) w) in
    let market := at_ Market (elem 0 l) in
    (1 <= length h <= 6)%nat
    /\ (forall s, h !! 0%nat = Some s ->
          act s = Call (inv market "eventContract" []))
    /\ (forall s, h !! 1%nat = Some s ->
          exists ev,
            resp <$> h !! 0%nat = Some (RAddress ev)
            /\ act s = Call (inv (at_ Event (JString ev)) "outcomeTokens"
                                 [elem 1 l]))
    /\ (forall s, h !! 2%nat = Some s ->
          act s = Call (inv (lmsrMarketMaker this) "calcProfit"
                            [elem 0 l; elem 1 l; elem 2 l]))
    /\ (forall s, h !! 3%nat = Some s ->
          exists baseProfit,
            resp <$> h !! 2%nat = Some (RUint baseProfit)
            /\ act s = Call (inv market "calcMarketFee"
                                 [JBigNumber baseProfit]))
    /\ (forall s, h !! 4%nat = Some s ->
          exists tok,
            resp <$> h !! 1%nat = Some (RAddress tok)
            /\ act s = SendTransaction
                         (inv (at_ Token (JString tok)) "approve"
                              [elem 0 l; elem 2 l]))
    /\ (forall s, h !! 5%nat = Some s ->
          exists baseProfit fee,
            resp <$> h !! 2%nat = Some (RUint baseProfit)
            /\ resp <$> h !! 3%nat = Some (RUint fee)
            /\ act s = SendTransaction
                         (inv market "sell"
                              [elem 1 l; elem 2 l;
                               JBigNumber (baseProfit - fee)])).
Proof.
  intros this arguments w l Hn h market. subst h market.
  cbv [tradeOpts] in Hn. unfold_op. rewrite Hn. cbv beta iota zeta.
  repeat next_answer.
  all: cbn [fst app length].
  all: repeat match goal with |- _ /\ _ => split end; try lia.
  all: intros s Hs; cbn in Hs; try discriminate Hs; injection Hs as <-.
  all: cbn; eauto.
Qed.

Lemma sell_example_within_six_steps :
  (1 <= length (fst (run (sellOutcomeTokens sdk (trade 1 10))
                         (chain eventA tokenA 100 5))) <= 6)%nat.
Proof.
  refine (proj1 (sell_requests_follow_answers sdk (trade 1 10)
                   (chain eventA tokenA 100 5) (tradeArgs 1 10) _)).
  vm_compute; reflexivity.
Defined.

(** X3: in a run of [shortSellOutcomeTokens] whose arguments normalise to
    [l], there are between one and three network interactions, in this
    order: [eventContract] on the market; [collateralToken] on the event
    contract the first answer names; [shortSell] on the market with
    (index, count, 0).  The market maker is never contacted. *)
Theorem shortSell_requests_follow_answers :
  forall this arguments w l,
    normalizeWeb3Args arguments (tradeOpts ShortSell) = Ok l ->
    let h := fst (run (shortSellOutcomeTokens this arguments) w) in
    let market := at_ Market (elem 0 l) in
    (1 <= length h <= 3)%nat
    /\ (forall s, h !! 0%nat = Some s ->
          act s = Call (inv market "eventContract" []))
    /\ (forall s, h !! 1%nat = Some s ->
          exists ev,
            resp <$> h !! 0%nat = Some (RAddress ev)
            /\ act s = Call (inv (at_ Event (JString ev)) "collateralToken" []))
    /\ (forall s, h !! 2%nat = Some s ->
          (exists tok, resp <$> h !! 1%nat = Some (RAddress tok))
          /\ act s = SendTransaction
                       (inv market "shortSell"
                            [elem 1 l; elem 2 l; JNumber 0]))
    /\ (forall s i, s ∈ h -> (act s = Call i \/ act s = SendTransaction i) ->
          ctype (callee i) <> LMSRMarketMaker).
Proof.
  intros this arguments w l Hn h market. subst h market.
  cbv [tradeOpts] in Hn. unfold_op. rewrite Hn. cbv beta iota zeta.
  repeat next_answer.
  all: cbn [fst app length].
  all: repeat match goal with |- _ /\ _ => split end; try lia.
  all: try (intros s Hs; cbn in Hs; try discriminate Hs; injection Hs as <-;
            cbn; eauto; fail).
  all: intros s i Hs Hact.
  all: repeat match goal with
         | H : _ ∈ _ :: _ |- _ => apply elem_of_cons in H as [->|H]
         | H : _ ∈ [] |- _ => apply elem_of_nil in H; destruct H
         end.
  all: cbn in Hact; destruct Hact as [[= <-]|[= <-]]; cbn; discriminate.
Qed.

Lemma shortSell_example_within_three_steps :
  (1 <= length (fst (run (shortSellOutcomeTokens sdk (trade 1 4))
                         (chain eventA tokenA 0 0))) <= 3)%nat.
Proof.
  refine (proj1 (shortSell_requests_follow_answers sdk (trade 1 4)
                   (chain eventA tokenA 0 0) (tradeArgs 1 4) _)).
  vm_compute; reflexivity.
Defined.

(** *** Queries first, transactions last *)

Lemma callsFirst_spec h :
  callsFirst h = true ->
  forall h1 s h2, h = h1 ++ s :: h2 -> isCall s = true ->
                  Forall (fun x => isCall x = true) h1.
Proof.
  induction h as [|x h IH]; intros Hc h1 s h2 E Hs.
  - now destruct h1.
  - destruct h1 as [|y h1]; [constructor|]. cbn in E. injection E as -> E.
    cbn in Hc. destruct (isCall y) eqn:Hy.
    + constructor; [exact Hy|]. eapply IH; eauto.
    + rewrite forallb_forall in Hc.
      assert (Hin : In s h) by (rewrite E; apply in_elt).
      apply Hc in Hin. rewrite Hs in Hin. discriminate.
Qed.

Lemma perform_phases o this arguments w :
  let h := fst (run (perform o this arguments) w) in
  callsFirst h = true
  /\ (countCalls h <= queriesOf o)%nat
  /\ (countTransactions h <= fullLength o - queriesOf o)%nat
  /\ (countTransactions h <> 0%nat ->
      countCalls h = queriesOf o
      /\ forallb (fun s => negb (isCall s && failed s)) h = true).
Proof.
  destruct o; all_courses arguments.
  all: cbv [countCalls countTransactions queriesOf fullLength]; cbn.
  all: repeat match goal with |- _ /\ _ => split end; try reflexivity; try lia.
  all: intros Hne; try (now destruct Hne).
  all: repeat match goal with |- _ /\ _ => split end; reflexivity.
Qed.

(** X4: in every run of a trading operation all read-only calls come
    before all transactions: once something has been sent, nothing more is
    queried.  Buying and selling make at most four calls and two
    transactions, short selling at most two calls and one transaction.
    And no transaction is sent unless every query of the operation was
    made and answered. *)
Theorem queries_come_before_transactions :
  forall (o : tradeOp) this arguments w,
    let h := fst (run (perform o this arguments) w) in
    (forall h1 s h2, h = h1 ++ s :: h2 -> isCall s = true ->
                     Forall (fun x => isCall x = true) h1)
    /\ (countCalls h <= queriesOf o)%nat
    /\ (countTransactions h <= fullLength o - queriesOf o)%nat
    /\ (forall s, s ∈ h -> isCall s = false ->
                  countCalls h = queriesOf o
                  /\ forall q, q ∈ h -> isCall q = true -> failed q = false).
Proof.
  intros o this arguments w h. subst h.
  destruct (perform_phases o this arguments w) as (Hf & Hc & Ht & Hall).
  split; [now apply callsFirst_spec|]. split; [exact Hc|]. split; [exact Ht|].
  intros s Hs Htx.
  assert (Hne : countTransactions
                  (fst (run (perform o this arguments) w)) <> 0%nat).
  { unfold countTransactions. intros H0. apply length_zero_iff_nil in H0.
    assert (Hin : In s (List.filter (fun s => negb (isCall s))
                          (fst (run (perform o this arguments) w)))).
    { apply filter_In. split; [now apply list_elem_of_In|]. now rewrite Htx. }
    rewrite H0 in Hin. destruct Hin. }
  destruct (Hall Hne) as (Hq & Hok). split; [exact Hq|].
  intros q Hq' Hcall. rewrite forallb_forall in Hok.
  apply list_elem_of_In, Hok in Hq'. rewrite Hcall in Hq'. cbn in Hq'.
  now apply negb_true_iff in Hq'.
Qed.

(** *** Where results and failures come from *)

(** X5: a trading operation resolves with [v] exactly when the last step of
    its run is its main transaction ([buy], [sell], [shortSell]) answered
    with a receipt in which the operation's own event
    ([OutcomeTokenPurchase], [OutcomeTokenSale], [OutcomeTokenShortSale])
    is found, [v] being that event's [cost] (for a sale: [profit]). *)
Theorem result_is_field_of_main_event :
  forall (o : tradeOp) this arguments w v,
    let h := fst (run (perform o this arguments) w) in
    let r := snd (run (perform o this arguments) w) in
    r = Ok v <->
    exists i rc ev,
      last h = Some {| act := SendTransaction i; resp := RReceipt rc |}
      /\ method i = mainMethod o
      /\ requireEventFromTXResult rc (mainEvent o) = Ok ev
      /\ v = getField (args ev) (resultField o).
Proof.
  intros o this arguments w v h r. subst h r.
  destruct o; all_courses arguments.
  all: split;
    [ intros Hr; try discriminate Hr; injection Hr as <-;
      eexists _, _, _;
      repeat match goal with |- _ /\ _ => split end;
      first [eassumption | reflexivity]
    | intros (i & rc & ev & Hlast & Hm & Hev & ->);
      cbn in Hlast; try discriminate Hlast;
      injection Hlast as <- <-; cbn in Hm; try discriminate Hm;
      cbn [mainEvent] in Hev;
      match goal with
      | H : requireEventFromTXResult _ _ = _ |- _ =>
          rewrite H in Hev; try discriminate Hev; injection Hev as <-
      end; reflexivity ].
Qed.

Lemma requireEvent_not_once r n e :
  requireEventFromTXResult r n = Err e ->
  forall l, filter (fun x => event x = n) (logs r) <> [l].
Proof.
  rewrite requireEvent_filter. intros H l E. rewrite E in H. discriminate H.
Qed.

(** X6: a trading operation fails in one of four ways.  Its arguments are
    rejected: the error is the normaliser's [ArgumentError] and nothing was
    sent.  Or the last request was rejected by the network: the error is
    that [TransactionFailure].  Or (buying and selling) the last step is
    the approval, and the check of its receipt for the [Approval] event
    failed with that error.  Or the last step is the main transaction, and
    the check of its receipt for the operation's event failed with that
    error.  A receipt fails the check when it does not hold the event
    exactly once; when it holds none, the error is the [MissingEventError]
    naming the event. *)
Theorem failures_are_classified :
  forall (o : tradeOp) this arguments w e,
    snd (run (perform o this arguments) w) = Err e ->
    let h := fst (run (perform o this arguments) w) in
    (h = [] /\ normalizeWeb3Args arguments (tradeOpts o) = Err e
     /\ isArgumentError e = true)
    \/ (exists s reason,
          last h = Some s /\ resp s = RFail reason
          /\ e = TransactionFailure reason)
    \/ (o <> ShortSell
        /\ exists i rc,
             last h = Some {| act := SendTransaction i; resp := RReceipt rc |}
             /\ method i = "approve"
             /\ requireEventFromTXResult rc "Approval" = Err e
             /\ (forall l, filter (fun x => event x = "Approval") (logs rc)
                           <> [l])
             /\ ((forall l, l ∈ logs rc -> event l <> "Approval") ->
                 e = MissingEventError "Approval"))
    \/ (exists i rc,
          last h = Some {| act := SendTransaction i; resp := RReceipt rc |}
          /\ method i = mainMethod o
          /\ requireEventFromTXResult rc (mainEvent o) = Err e
          /\ (forall l, filter (fun x => event x = mainEvent o) (logs rc)
                        <> [l])
          /\ ((forall l, l ∈ logs rc -> event l <> mainEvent o) ->
              e = MissingEventError (mainEvent o))).
Proof.
  intros o this arguments w e.
  destruct o; all_courses arguments.
  all: intros Hr; try discriminate Hr; injection Hr as <-.
  all: try (left; split; [reflexivity|]; split; [reflexivity|];
            match goal with
            | H : normalizeWeb3Args _ _ = Err _ |- _ =>
                apply normalizeWeb3Args_error in H as [? ->]
            end; reflexivity).
  all: try (right; left; eexists _, _; cbn;
            split; [reflexivity|]; split; reflexivity).
  all: try (right; right; left; split; [discriminate|]; eexists _, _; cbn;
            split; [reflexivity|]; split; [reflexivity|];
            split; [eassumption|];
            split; [eapply requireEvent_not_once; eassumption|];
            intros _; reflexivity).
  all: right; right; right; eexists _, _; cbn;
       split; [reflexivity|]; split; [reflexivity|];
       split; [eassumption|];
       split; [eapply requireEvent_not_once; eassumption|];
       intros _; reflexivity.
Qed.

Lemma rejected_approval_is_a_transaction_failure :
  exists s reason,
    last (fst (run (perform Buy sdk (trade 0 10))
                   (chainRejectingApproval eventA tokenA 100 5))) = Some s
    /\ resp s = RFail reason
    /\ TransactionFailure "revert" = TransactionFailure reason.
Proof.
  destruct (failures_are_classified Buy sdk (trade 0 10)
              (chainRejectingApproval eventA tokenA 100 5)
              (TransactionFailure "revert"))
    as [(H & _)|[H|[(_ & i & rc & H & _)|(i & rc & H & _)]]].
  - vm_compute; reflexivity.
  - vm_compute in H. discriminate H.
  - exact H.
  - vm_compute in H. discriminate H.
  - vm_compute in H. discriminate H.
Defined.

(** X7: an operation that resolves has gone through its whole pipeline:
    its arguments were accepted, it made all of its network interactions
    (six for buying and selling, three for short selling), every request
    was answered, and the approval's receipt held the [Approval] event. *)
Theorem resolved_run_is_complete :
  forall (o : tradeOp) this arguments w v,
    snd (run (perform o this arguments) w) = Ok v ->
    let h := fst (run (perform o this arguments) w) in
    (exists l, normalizeWeb3Args arguments (tradeOpts o) = Ok l)
    /\ length h = fullLength o
    /\ Forall (fun s => failed s = false) h.
Proof.
  intros o this arguments w v.
  destruct o; all_courses arguments.
  all: intros Hr; try discriminate Hr.
  all: split; [eauto|]; split; [reflexivity|].
  all: repeat constructor; cbn [failed act resp method].
  all: repeat match goal with
         | H : requireEventFromTXResult _ _ = _ |- _ => rewrite H; clear H
         end.
  all: reflexivity.
Qed.

Lemma resolved_purchase_has_six_steps :
  length (fst (run (perform Buy sdk (trade 0 10)) (chain eventA tokenA 100 5)))
  = fullLength Buy.
Proof.
  refine (proj1 (proj2 (resolved_run_is_complete Buy sdk (trade 0 10)
                          (chain eventA tokenA 100 5) (JBigNumber 105) _))).
  vm_compute; reflexivity.
Defined.

(** X8: in every run of buying or selling, the approval is granted to the
    very market the trade is then sent to, for the very count traded: an
    approval is a token transaction whose arguments are the address of the
    main transaction's target and the main transaction's count. *)
Theorem approval_names_the_traded_market_and_count :
  forall (o : tradeOp) this arguments w ia im,
    let h := fst (run (perform o this arguments) w) in
    SendTransaction ia ∈ actions h -> method ia = "approve" ->
    SendTransaction im ∈ actions h -> method im = mainMethod o ->
    ctype (callee ia) = Token /\ ctype (callee im) = Market
    /\ margs ia = [address (callee im); elem 1 (margs im)].
Proof.
  intros o this arguments w ia im h. subst h.
  destruct o; all_courses arguments.
  all: intros Ha Hma Hm Hmm; cbv [actions] in Ha, Hm; cbn in Ha, Hm.
  all: repeat match goal with
         | H : _ ∈ _ :: _ |- _ => apply elem_of_cons in H as [H|H]
         | H : _ ∈ [] |- _ => apply elem_of_nil in H; destruct H
         | H : SendTransaction _ = Call _ |- _ => discriminate H
         | H : SendTransaction _ = SendTransaction _ |- _ =>
             injection H as ->
         end.
  all: cbn in Hma, Hmm; try discriminate Hma; try discriminate Hmm.
  all: cbn; repeat split; reflexivity.
Qed.

Lemma sale_approval_names_market_and_count :
  ctype (callee (inv (at_ Token (JString tokenA)) "approve"
                     [JString marketA; JBigNumber 10])) = Token
  /\ ctype (callee (inv (at_ Market (JString marketA)) "sell"
                        [JBigNumber 0; JBigNumber 10; JBigNumber 95])) = Market
  /\ margs (inv (at_ Token (JString tokenA)) "approve"
                [JString marketA; JBigNumber 10])
     = [address (callee (inv (at_ Market (JString marketA)) "sell"
                             [JBigNumber 0; JBigNumber 10; JBigNumber 95]));
        elem 1 (margs (inv (at_ Market (JString marketA)) "sell"
                           [JBigNumber 0; JBigNumber 10; JBigNumber 95]))].
Proof.
  apply (approval_names_the_traded_market_and_count Sell sdk (trade 0 10)
           (chain eventA tokenA 100 5)).
  - vm_compute. repeat (apply list_elem_of_here || apply list_elem_of_further).
  - reflexivity.
  - vm_compute. repeat (apply list_elem_of_here || apply list_elem_of_further).
  - reflexivity.
Defined.

(** X9: in [sellOutcomeTokens], whatever the market maker and the market
    answer, every [sell] transaction submitted is the one on the market
    whose third argument is base profit - fee, and it is submitted as soon
    as the approval went through; with a fee between 0 and the base profit
    that minimum lies between 0 and the base profit. *)
Theorem sell_submits_profit_less_fee :
  forall this arguments w l ev tok baseProfit fee,
    normalizeWeb3Args arguments (tradeOpts Sell) = Ok l ->
    answersFrom w [] (sellQueries this l ev tok baseProfit fee) ->
    let h := fst (run (sellOutcomeTokens this arguments) w) in
    let sell := inv (at_ Market (elem 0 l)) "sell"
                  [elem 1 l; elem 2 l; JBigNumber (baseProfit - fee)] in
    (forall i, SendTransaction i ∈ actions h -> method i = "sell" -> i = sell)
    /\ (forall receipt,
          sendTx w (sellQueries this l ev tok baseProfit fee)
            (inv (at_ Token (JString tok)) "approve" [elem 0 l; elem 2 l])
          = Answered receipt ->
          isOk (requireEventFromTXResult receipt "Approval") = true ->
          SendTransaction sell ∈ actions h)
    /\ (0 <= fee <= baseProfit -> 0 <= baseProfit - fee <= baseProfit).
Proof.
  intros this arguments w l ev tok baseProfit fee Hn Hw h sell. subst h.
  rewrite (sell_after_queries _ _ _ _ _ _ _ _ Hn Hw).
  split; [|split; [|lia]].
  - intros i Hi Hm.
    apply approveThenSend_transactions in Hi as [Hi|[->| ->]].
    + destruct (queries_are_calls _ _ (sellQueries_calls _ _ _ _ _ _) Hi).
    + discriminate Hm.
    + reflexivity.
  - intros receipt Htx Hev.
    exact (approveThenSend_sends _ _ _ (sellDescriptor l (baseProfit - fee))
             _ _ _ Htx Hev).
Qed.

Lemma sell_profit_100_fee_5 :
  SendTransaction
    (inv (at_ Market (JString marketA)) "sell"
         [JBigNumber 0; JBigNumber 10; JBigNumber (100 - 5)])
  ∈ actions (fst (run (sellOutcomeTokens sdk (trade 0 10))
                      (chain eventA tokenA 100 5))).
Proof.
  refine (proj1 (proj2
            (sell_submits_profit_less_fee sdk (trade 0 10)
               (chain eventA tokenA 100 5) (tradeArgs 0 10)
               eventA tokenA 100 5 _ _))
            (receiptFor (inv (at_ Token (JString tokenA)) "approve"
                             [JString marketA; JBigNumber 10])) _ _).
  - vm_compute; reflexivity.
  - vm_compute; auto.
  - reflexivity.
  - reflexivity.
Defined.

(** ** Worked examples *)

(** Buying 10 units at index 0 when the market maker quotes 100 and the
    market's fee on it is 5: the queries, the approval for 10, then [buy]
    with cost 105, which the purchase event reports back. *)
Example buy_10_at_cost_105 :
  let '(h, r) := run (buyOutcomeTokens sdk (trade 0 10))
                     (chain eventA tokenA 100 5) in
  actions h
  = actions (buyQueries sdk (tradeArgs 0 10) eventA tokenA 100 5)
    ++ [ SendTransaction (inv (at_ Token (JString tokenA)) "approve"
                              [JString marketA; JBigNumber 10]);
         SendTransaction (inv (at_ Market (JString marketA)) "buy"
                              [JBigNumber 0; JBigNumber 10; JBigNumber 105]) ]
  /\ r = Ok (JBigNumber 105).
Proof. vm_compute. split; reflexivity. Qed.

(** Selling 10 units with base profit 100 and fee 5: minProfit is 95. *)
Example sell_10_at_profit_95 :
  let '(h, r) := run (sellOutcomeTokens sdk (trade 0 10))
                     (chain eventA tokenA 100 5) in
  last (actions h)
  = Some (SendTransaction (inv (at_ Market (JString marketA)) "sell"
                               [JBigNumber 0; JBigNumber 10; JBigNumber 95]))
  /\ r = Ok (JBigNumber 95).
Proof. vm_compute. split; reflexivity. Qed.

(** Short selling: two lookups, then [shortSell] with floor 0; the result
    is the cost the event reports. *)
Example shortSell_4_at_index_1 :
  let '(h, r) := run (shortSellOutcomeTokens sdk (trade 1 4))
                     (chain eventA tokenA 100 5) in
  actions h
  = [ Call (inv (at_ Market (JString marketA)) "eventContract" []);
      Call (inv (at_ Event (JString eventA)) "collateralToken" []);
      SendTransaction (inv (at_ Market (JString marketA)) "shortSell"
                           [JBigNumber 1; JBigNumber 4; JNumber 0]) ]
  /\ r = Ok (JBigNumber 7).
Proof. vm_compute. split; reflexivity. Qed.

(** A rejected approval ends the purchase: no [buy] follows. *)
Example buy_stops_at_failed_approval :
  let w := {| callAddress := callAddress (chain eventA tokenA 100 5);
              callUint := callUint (chain eventA tokenA 100 5);
              sendTx := fun _ _ => Failed "revert" |} in
  let '(h, r) := run (buyOutcomeTokens sdk (trade 0 10)) w in
  last (actions h)
  = Some (SendTransaction (inv (at_ Token (JString tokenA)) "approve"
                               [JString marketA; JBigNumber 10]))
  /\ length h = 5%nat /\ r = Err (TransactionFailure "revert").
Proof. vm_compute. repeat split; reflexivity. Qed.

(** A handle and the raw identifier it exposes normalise alike; so do a
    number, a numeric string and a big number. *)
Example handle_and_strings_accepted :
  normalizeWeb3Args
    (Positional [JContract marketA; JString "3"; JBigNumber 12])
    (tradeOpts Buy)
  = normalizeWeb3Args
      (Positional [JString marketA; JNumber 3; JString "12"])
      (tradeOpts Buy)
  /\ normalizeWeb3Args
       (Positional [JString marketA; JNumber 3; JString "12"])
       (tradeOpts Buy)
     = Ok (tradeArgs 3 12).
Proof. vm_compute. split; reflexivity. Qed.

(** A positional call of the wrong length, and a named call with an extra
    name, are rejected. *)
Example two_positional_arguments_rejected :
  normalizeWeb3Args (Positional [JString marketA; JNumber 0]) (tradeOpts Buy)
  = Err (ArgumentError "buyOutcomeTokens" None).
Proof. vm_compute. reflexivity. Qed.

Example extra_name_rejected :
  normalizeWeb3Args
    (Named {[ "market" := JString marketA;
              "outcomeTokenIndex" := JNumber 0;
              "outcomeTokenCount" := JNumber 1;
              "limit" := JNumber 9 ]})
    (tradeOpts Buy)
  = Err (ArgumentError "buyOutcomeTokens" None).
Proof. vm_compute. reflexivity. Qed.

(** A value that is no address. *)
Example short_address_rejected :
  normalizeWeb3Args (Positional [JString "0xa1"; JNumber 0; JNumber 1])
    (tradeOpts Buy)
  = Err (ArgumentError "buyOutcomeTokens" (Some "market")).
Proof. vm_compute. reflexivity. Qed.

(** Creating a market: one [createMarket] transaction on the factory, with
    the event given under its alias; the result is a handle of the market
    the [MarketCreation] event names. *)
Example creation_sends_one_transaction :
  run (createMarket factorySdk creation) (chainAnswering creationReceipt)
  = ([ {| act := SendTransaction
                   (inv (at_ MarketFactory (JContract factoryA)) "createMarket"
                        [JString eventA; JString makerA; JBigNumber 50000]);
          resp := RReceipt creationReceipt |} ],
     Ok (at_ Market (JString marketA))).
Proof. vm_compute. reflexivity. Qed.

(** Without a fee the call is rejected and nothing is sent. *)
Example creation_without_fee_rejected :
  run (createMarket factorySdk
         (Named {[ "marketFactory" := JContract factoryA;
                   "event" := JString eventA;
                   "marketMaker" := JContract makerA ]}))
      (chainAnswering creationReceipt)
  = ([], Err (ArgumentError "createMarket" (Some "fee"))).
Proof. vm_compute. reflexivity. Qed.

(** A receipt without the expected event. *)
Example missing_event :
  requireEventFromTXResult
    {| logs := [ {| event := "Transfer"; args := ∅ |} ] |} "Approval"
  = Err (MissingEventError "Approval").
Proof. reflexivity. Qed.
